(* Verification of the WordPress reader
   (llama_index/readers/wordpress/base.py): the constructor of
   WordpressReader, the page fetcher get_posts_page, the pagination loop
   get_all_posts and the normaliser load_data, embedded as functions over
   an explicit model of the Python values they handle and of the HTTP
   exchanges they perform. *)

From Stdlib Require Import ZArith String Ascii List Bool Lia.
From Stdlib Require Import Floats.SpecFloat.
From stdpp Require Import base gmap strings list pretty.

Open Scope string_scope.
Open Scope list_scope.
Open Scope Z_scope.

(* ------------------------------------------------------------------ *)
(* Python values                                                       *)
(* ------------------------------------------------------------------ *)

(* What json.loads produces, which is all the reader ever inspects:
   None, bool, int, float, str, list and dict.  A str is a sequence of
   characters with code points below 256; a dict keeps its entries in
   insertion order and is read by its first entry for a key. *)
#[local] Unset Elimination Schemes.
Inductive PyVal : Type :=
| PNone
| PBool (b : bool)
| PInt (n : Z)
| PFloat (f : spec_float)
| PStr (s : string)
| PList (l : list PyVal)
| PDict (d : list (string * PyVal)).
#[local] Set Elimination Schemes.

(* The exceptions the reader can let escape. *)
Inductive Exn : Type :=
| HTTPError (status : Z)      (* response.raise_for_status() *)
| ConnectionError             (* requests.get could not complete *)
| JSONDecodeError             (* response.json() on a body that is not JSON *)
| ValueError                  (* int() on a malformed literal *)
| OverflowError               (* int() on an infinite float *)
| TypeError
| AttributeError              (* .get on an object that has none *)
| KeyError (key : string).    (* d[key] on a dict without key *)

Inductive Result (A : Type) : Type :=
| Ok (a : A)
| Raise (e : Exn).
Arguments Ok {A} a.
Arguments Raise {A} e.

Definition bindR {A B} (r : Result A) (k : A → Result B) : Result B :=
  match r with
  | Ok a => k a
  | Raise e => Raise e
  end.

Notation "'try!' x ':=' r 'in' k" := (bindR r (fun x => k))
  (at level 10, x name, r at level 100, k at level 200).

(* ------------------------------------------------------------------ *)
(* Dictionaries and the operators the reader applies to values         *)
(* ------------------------------------------------------------------ *)

Fixpoint assoc {V} (k : string) (d : list (string * V)) : option V :=
  match d with
  | [] => None
  | (k', v) :: d' => if String.eqb k' k then Some v else assoc k d'
  end.

(* obj.get(key, default): only a dict has the method. *)
Definition py_get (obj : PyVal) (key : string) (default : PyVal) : Result PyVal :=
  match obj with
  | PDict d => Ok (from_option id default (assoc key d))
  | _ => Raise AttributeError
  end.

(* obj[key] with a str key. *)
Definition py_getitem (obj : PyVal) (key : string) : Result PyVal :=
  match obj with
  | PDict d => match assoc key d with
               | Some v => Ok v
               | None => Raise (KeyError key)
               end
  | _ => Raise TypeError
  end.

(* bool(v). *)
Definition py_truthy (v : PyVal) : bool :=
  match v with
  | PNone => false
  | PBool b => b
  | PInt n => negb (n =? 0)
  | PFloat (S754_zero _) => false
  | PFloat _ => true
  | PStr s => negb (String.eqb s "")
  | PList l => match l with [] => false | _ => true end
  | PDict d => match d with [] => false | _ => true end
  end.

(* a or b *)
Definition py_or (a b : PyVal) : PyVal := if py_truthy a then a else b.

(* v is None *)
Definition is_None (v : PyVal) : bool :=
  match v with PNone => true | _ => false end.

Fixpoint chars (s : string) : list PyVal :=
  match s with
  | EmptyString => []
  | String c s' => PStr (String c EmptyString) :: chars s'
  end.

(* What list.extend(v) appends: the elements of a list, the keys of a
   dict, the characters of a str; the other values are not iterable. *)
Definition py_iter (v : PyVal) : Result (list PyVal) :=
  match v with
  | PList l => Ok l
  | PDict d => Ok (map (fun kv => PStr (fst kv)) d)
  | PStr s => Ok (chars s)
  | _ => Raise TypeError
  end.

(* ------------------------------------------------------------------ *)
(* Strings: str.split(","), str.strip(), str.lower(), int(), str(int)  *)
(* ------------------------------------------------------------------ *)

Definition code (c : ascii) : Z := Z.of_N (N_of_ascii c).

Definition code_in (c : ascii) (l : list Z) : bool :=
  existsb (Z.eqb (code c)) l.

(* str.isspace() for one character, as str.strip() uses it. *)
Definition is_space (c : ascii) : bool :=
  code_in c [9; 10; 11; 12; 13; 28; 29; 30; 31; 32; 133; 160].

(* The white space int() skips around a literal: the C locale's, and
   the two non-ASCII spaces, which it first rewrites to a blank. *)
Definition is_int_space (c : ascii) : bool :=
  code_in c [9; 10; 11; 12; 13; 32; 133; 160].

Fixpoint lstrip (s : string) : string :=
  match s with
  | EmptyString => EmptyString
  | String c s' => if is_space c then lstrip s' else s
  end.

Fixpoint rstrip (s : string) : string :=
  match s with
  | EmptyString => EmptyString
  | String c s' =>
      match rstrip s' with
      | EmptyString => if is_space c then EmptyString else String c EmptyString
      | r => String c r
      end
  end.

(* s.strip() *)
Definition strip (s : string) : string := rstrip (lstrip s).

(* s.split(sep) for a one-character separator: never an empty list. *)
Fixpoint split (sep : ascii) (s : string) : list string :=
  match s with
  | EmptyString => [EmptyString]
  | String c s' =>
      if Ascii.eqb c sep then EmptyString :: split sep s'
      else match split sep s' with
           | [] => [String c EmptyString]
           | w :: ws => String c w :: ws
           end
  end.

Definition lower_char (c : ascii) : ascii :=
  if (65 <=? code c) && (code c <=? 90)
  then ascii_of_N (N_of_ascii c + 32) else c.

(* s.lower(), on the ASCII letters: enough to compare a header name with
   an ASCII one, since no other character lowers to an ASCII letter. *)
Fixpoint lower (s : string) : string :=
  match s with
  | EmptyString => EmptyString
  | String c s' => String (lower_char c) (lower s')
  end.

Definition digit_val (c : ascii) : option Z :=
  if (48 <=? code c) && (code c <=? 57) then Some (code c - 48) else None.

Fixpoint all_int_space (s : string) : bool :=
  match s with
  | EmptyString => true
  | String c s' => is_int_space c && all_int_space s'
  end.

(* The digits of a base-10 literal up to the end of the string: digits
   with single underscores between them, then white space only.  Returns
   the value and the number of digits read. *)
Fixpoint scan_digits (s : string) (acc : Z) (n : nat) (after_digit : bool)
  : option (Z * nat) :=
  match s with
  | EmptyString => if after_digit then Some (acc, n) else None
  | String c s' =>
      match digit_val c with
      | Some d => scan_digits s' (10 * acc + d) (S n) true
      | None =>
          if Ascii.eqb c "_"
          then (if after_digit then scan_digits s' acc n false else None)
          else if after_digit && all_int_space s then Some (acc, n) else None
      end
  end.

Fixpoint skip_int_space (s : string) : string :=
  match s with
  | EmptyString => EmptyString
  | String c s' => if is_int_space c then skip_int_space s' else s
  end.

(* sys.get_int_max_str_digits() as the interpreter starts with. *)
Definition int_max_str_digits : nat := 4300.

(* int(s) for a str s, base 10: None stands for ValueError. *)
Definition int_of_str (s : string) : option Z :=
  let s := skip_int_space s in
  let '(neg, s) :=
    match s with
    | String "-" s' => (true, s')
    | String "+" s' => (false, s')
    | _ => (false, s)
    end in
  match scan_digits s 0 0%nat false with
  | Some (v, n) =>
      if (n <=? int_max_str_digits)%nat
      then Some (if neg then - v else v) else None
  | None => None
  end.

(* int(x) *)
Definition py_int (x : PyVal) : Result Z :=
  match x with
  | PInt n => Ok n
  | PBool b => Ok (if b then 1 else 0)
  | PStr s => match int_of_str s with
              | Some n => Ok n
              | None => Raise ValueError
              end
  | PFloat (S754_zero _) => Ok 0
  | PFloat (S754_finite neg m e) =>
      let a := if 0 <=? e then Z.pos m * 2 ^ e else Z.pos m / 2 ^ (- e) in
      Ok (if neg then - a else a)
  | PFloat (S754_infinity _) => Raise OverflowError
  | PFloat S754_nan => Raise ValueError
  | PNone | PList _ | PDict _ => Raise TypeError
  end.

(* str(n), as an f-string formats an int. *)
Definition str_of_int (n : Z) : string := pretty n.

(* ------------------------------------------------------------------ *)
(* The world outside the reader                                        *)
(* ------------------------------------------------------------------ *)

Record Request := {
  req_url : string;
  req_auth : option (string * string);
  req_headers : list (string * string)
}.

(* A requests.Response: the status, the headers (read without regard to
   the case of the name) and the body as response.json() decodes it,
   None when the body is not JSON. *)
Record Response := {
  status_code : Z;
  headers : list (string * string);
  json : option PyVal
}.

(* One call of requests.get and what came back. *)
Definition Exchange : Type := Request * Result Response.

(* The state the reader threads: the exchanges made so far, oldest first. *)
Definition World : Type := list Exchange.

(* A LlamaIndex Document as load_data builds it. *)
Record Document := {
  text : string;
  extra_info : list (string * PyVal)
}.

(* What the reader takes from its surroundings:
   - the order in which the interpreter iterates over a set of str (a
     set has each element once, in an order of the interpreter's choice);
   - BeautifulSoup(body).get_text();
   - the remote site, whose answer may depend on the exchanges so far. *)
Class Externals := {
  set_order : gset string → list string;
  set_order_NoDup : ∀ X, NoDup (set_order X);
  set_order_elem : ∀ X x, x ∈ set_order X ↔ x ∈ X;
  get_text : PyVal → Result string;
  respond : World → Request → Result Response
}.

(* The attributes __init__ leaves on self. *)
Record Config := {
  url : string;
  username : option string;
  password : option string;
  page_limit : option Z;
  post_types : list string
}.

(* The dict get_posts_page returns. *)
Record PageResult := {
  articles : PyVal;
  next_page : option Z
}.

Definition user_agent : string :=
  "Mozilla/5.0 (Macintosh; Intel Mac OS X 10_15_7) AppleWebKit/537.36 (KHTML, like Gecko) Chrome/137.0.0.0 Safari/537.36".

(* bool(s) for an Optional[str]. *)
Definition truthy_opt (s : option string) : bool :=
  match s with
  | Some s => negb (String.eqb s "")
  | None => false
  end.

(* The value response.headers holds for a name, None when it holds
   none: names are compared in lower case. *)
Fixpoint header_lookup (h : list (string * string)) (name : string)
  : option string :=
  match h with
  | [] => None
  | (k, v) :: h' =>
      if String.eqb (lower k) (lower name) then Some v
      else header_lookup h' name
  end.

(* response.headers.get(name, default) *)
Definition headers_get (h : list (string * string)) (name : string)
    (default : PyVal) : PyVal :=
  match header_lookup h name with
  | Some v => PStr v
  | None => default
  end.

(* response.raise_for_status() *)
Definition raise_for_status (r : Response) : Result unit :=
  if (400 <=? status_code r) && (status_code r <? 600)
  then Raise (HTTPError (status_code r)) else Ok tt.

(* response.json() *)
Definition response_json (r : Response) : Result PyVal :=
  match json r with
  | Some v => Ok v
  | None => Raise JSONDecodeError
  end.

(* num_pages = int(response_headers.get("X-WP-TotalPages", 1)) *)
Definition num_pages (response : Response) : Result Z :=
  py_int (headers_get (headers response) "X-WP-TotalPages" (PInt 1)).

(* The url, auth and headers arguments get_posts_page passes to
   requests.get. *)
Definition page_request (self : Config) (post_type : string)
    (current_page : Z) : Request :=
  let url := url self +:+ "/wp-json/wp/v2/" +:+ post_type
             +:+ "?per_page=100&page=" +:+ str_of_int current_page in
  let auth :=
    if truthy_opt (username self) && truthy_opt (password self)
    then Some (default "" (username self), default "" (password self))
    else None in
  let headers := [("User-Agent", user_agent)] in
  {| req_url := url; req_auth := auth; req_headers := headers |}.

Section Reader.
Context `{Externals}.

(* requests.get(url, auth=auth, headers=headers) *)
Definition requests_get (rq : Request) (w : World) : Result Response * World :=
  let r := respond w rq in (r, w ++ [(rq, r)]).

(* WordpressReader.__init__ *)
Definition __init__ (url : string) (username password : option string)
    (get_pages get_posts : bool) (additional_post_types : option string)
    (page_limit : option Z) : Config :=
  let types : gset string := ∅ in
  let types := if get_pages then types ∪ {["pages"]} else types in
  let types := if get_posts then types ∪ {["posts"]} else types in
  let types :=
    if truthy_opt additional_post_types
    then types ∪ list_to_set
           (map strip (split "," (default "" additional_post_types)))
    else types in
  {| url := url; username := username; password := password;
     page_limit := page_limit; post_types := set_order types |}.

(* WordpressReader.get_posts_page *)
Definition get_posts_page (self : Config) (post_type : string)
    (current_page : Z) (w : World) : Result PageResult * World :=
  let '(r, w') := requests_get (page_request self post_type current_page) w in
  (try! response := r in
   try! _ := raise_for_status response in
   try! num_pages := num_pages response in
   let next_page :=
     if num_pages >? current_page then Some (current_page + 1) else None in
   try! articles := response_json response in
   Ok {| articles := articles; next_page := next_page |},
   w').

(* The while loop of get_all_posts.  A run of the loop may never end (a
   site can report one more page for ever), so the loop takes the number
   of iterations it may make: None says they did not suffice. *)
Fixpoint get_all_posts_loop (fuel : nat) (self : Config) (post_type : string)
    (posts : list PyVal) (next_page : Z) (pages_fetched : Z) (w : World)
  : option (Result (list PyVal) * World) :=
  match fuel with
  | O => None
  | S fuel =>
      match get_posts_page self post_type next_page w with
      | (Raise e, w) => Some (Raise e, w)
      | (Ok {| articles := page_articles; next_page := page_next |}, w) =>
          match py_iter page_articles with
          | Raise e => Some (Raise e, w)
          | Ok items =>
              let posts := posts ++ items in
              let pages_fetched := pages_fetched + 1 in
              match page_next with
              | None => Some (Ok posts, w)
              | Some next_page =>
                  match page_limit self with
                  | Some limit =>
                      if pages_fetched >=? limit then Some (Ok posts, w)
                      else get_all_posts_loop fuel self post_type posts
                             next_page pages_fetched w
                  | None =>
                      get_all_posts_loop fuel self post_type posts
                        next_page pages_fetched w
                  end
              end
          end
      end
  end.

(* WordpressReader.get_all_posts *)
Definition get_all_posts (fuel : nat) (self : Config) (post_type : string)
    (w : World) : option (Result (list PyVal) * World) :=
  get_all_posts_loop fuel self post_type [] 1 0 w.

(* load_data, first loop: articles.extend(self.get_all_posts(post_type))
   for each post type in turn. *)
Fixpoint fetch_articles (fuel : nat) (self : Config) (types : list string)
    (articles : list PyVal) (w : World) : option (Result (list PyVal) * World) :=
  match types with
  | [] => Some (Ok articles, w)
  | post_type :: types =>
      match get_all_posts fuel self post_type w with
      | None => None
      | Some (Raise e, w) => Some (Raise e, w)
      | Some (Ok posts, w) => fetch_articles fuel self types (articles ++ posts) w
      end
  end.

(* body = article.get("content", {}).get("rendered", None)
   if body is None: body = article.get("content") *)
Definition resolve_body (article : PyVal) : Result PyVal :=
  try! content := py_get article "content" (PDict []) in
  try! body := py_get content "rendered" PNone in
  if is_None body then py_get article "content" PNone else Ok body.

(* title = article.get("title", {}).get("rendered", None)
           or article.get("title") *)
Definition resolve_title (article : PyVal) : Result PyVal :=
  try! title := py_get article "title" (PDict []) in
  try! rendered := py_get title "rendered" PNone in
  if py_truthy rendered then Ok rendered else py_get article "title" PNone.

(* load_data, the body of the second loop: one article to one Document. *)
Definition normalize (article : PyVal) : Result Document :=
  try! body := resolve_body article in
  try! body := get_text body in
  try! title := resolve_title article in
  try! id := py_getitem article "id" in
  try! link := py_getitem article "link" in
  try! modified := py_getitem article "modified" in
  let extra_info :=
    [("id", id); ("title", title); ("url", link); ("updated_at", modified)] in
  Ok {| text := body; extra_info := extra_info |}.

(* load_data, second loop: the first article that raises ends the call. *)
Fixpoint process_articles (articles : list PyVal) (results : list Document)
  : Result (list Document) :=
  match articles with
  | [] => Ok results
  | article :: articles =>
      try! doc := normalize article in
      process_articles articles (results ++ [doc])
  end.

(* WordpressReader.load_data; its import of bs4 and the warning filter
   are taken to succeed and have no part in the result. *)
Definition load_data (fuel : nat) (self : Config) (w : World)
  : option (Result (list Document) * World) :=
  match fetch_articles fuel self (post_types self) [] w with
  | None => None
  | Some (Raise e, w) => Some (Raise e, w)
  | Some (Ok articles, w) => Some (process_articles articles [], w)
  end.

End Reader.

(* ------------------------------------------------------------------ *)
(* Sample surroundings, to run the reader on                           *)
(* ------------------------------------------------------------------ *)

(* A text extractor that returns a str as it is and rejects the rest. *)
Definition plain_text (body : PyVal) : Result string :=
  match body with
  | PStr s => Ok s
  | _ => Raise TypeError
  end.

(* An interpreter that iterates over a set in stdpp's order of elements,
   the extractor above, and a site that answers as told. *)
Definition surroundings (answer : World → Request → Result Response)
  : Externals :=
  {| set_order := elements;
     set_order_NoDup := NoDup_elements;
     set_order_elem := elem_of_elements;
     get_text := plain_text;
     respond := answer |}.

(* A site that answers the n-th request it receives with the n-th
   response of a list, and with a 404 once the list is used up. *)
Definition not_found : Response :=
  {| status_code := 404; headers := []; json := None |}.

Definition scripted (answers : list Response) : Externals :=
  surroundings (fun w _ => Ok (nth (length w) answers not_found)).

(* A site that answers every request alike. *)
Definition constant (answer : Response) : Externals :=
  surroundings (fun _ _ => Ok answer).

Definition page_of (total : string) (items : list PyVal) : Response :=
  {| status_code := 200;
     headers := [("Content-Type", "application/json"); ("X-WP-TotalPages", total)];
     json := Some (PList items) |}.

Definition item (id : Z) (title content : PyVal) : PyVal :=
  PDict [("id", PInt id);
         ("link", PStr ("https://example.com/?p=" +:+ str_of_int id));
         ("modified", PStr "2024-01-01T00:00:00");
         ("title", title);
         ("content", content)].

Definition rendered (s : string) : PyVal := PDict [("rendered", PStr s)].

Definition example_reader `{Externals} (get_pages get_posts : bool)
    (additional : option string) (limit : option Z) : Config :=
  __init__ "https://example.com" None None get_pages get_posts additional limit.

(* ------------------------------------------------------------------ *)
(* Notions the properties are stated with                              *)
(* ------------------------------------------------------------------ *)

(* The fields load_data reads with article[...]. *)
Definition required_fields : list string := ["id"; "link"; "modified"].

Definition has_field (article : PyVal) (key : string) : bool :=
  match py_getitem article key with
  | Ok _ => true
  | Raise _ => false
  end.

(* An article that lacks one of the required fields. *)
Definition missing_required (article : PyVal) : bool :=
  existsb (fun key => negb (has_field article key)) required_fields.

(* The raw items one exchange brought in: those of the response's JSON
   body, none when the exchange brought no usable body. *)
Definition exchange_items (x : Exchange) : list PyVal :=
  match snd x with
  | Ok response =>
      match response_json response with
      | Ok body => match py_iter body with
                   | Ok items => items
                   | Raise _ => []
                   end
      | Raise _ => []
      end
  | Raise _ => []
  end.

(* The requests made and the items fetched over a run of exchanges. *)
Definition requests_of (xs : list Exchange) : list Request := map fst xs.
Definition items_of (xs : list Exchange) : list PyVal :=
  flat_map exchange_items xs.

(* An answer that is a page of a collection reporting total pages: a
   success whose X-WP-TotalPages (or its default) reads as total and
   whose body is something list.extend accepts. *)
Definition good_page (r : Result Response) (total : Z) : Prop :=
  ∃ response body items,
    r = Ok response ∧ raise_for_status response = Ok tt ∧
    num_pages response = Ok total ∧ json response = Some body ∧
    py_iter body = Ok items.

(* The site answers every request for a page of post_type, whatever
   came before, with a good page reporting the same total. *)
Definition serves `{Externals} (self : Config) (post_type : string)
    (total : Z) : Prop :=
  ∀ w page, 1 ≤ page → good_page (respond w (page_request self post_type page)) total.

(* How many pages get_all_posts fetches from a collection of total
   pages under a page limit. *)
Definition pages_to_fetch (total : Z) (limit : option Z) : Z :=
  match limit with
  | Some n => Z.min (Z.max total 1) n
  | None => Z.max total 1
  end.

(* An additional_post_types string with a blank entry. *)
Definition has_blank_entry (additional : string) : Prop :=
  "" ∈ map strip (split "," additional).

(* ------------------------------------------------------------------ *)
(* Sample runs                                                         *)
(* ------------------------------------------------------------------ *)

(* A site whose every page reports X-WP-TotalPages: 3. *)
Definition three_page_site : Externals := constant (page_of "3" []).

(* A site whose X-WP-TotalPages header is not a number. *)
Definition garbled_site : Externals := constant (page_of "abc" []).

(* A site that sends no X-WP-TotalPages header. *)
Definition bare_page : Response :=
  {| status_code := 200; headers := []; json := Some (PList []) |}.
Definition bare_site : Externals := constant bare_page.

(* A reader of posts only. *)
Definition posts_reader `{Externals} (limit : option Z) : Config :=
  example_reader false true None limit.


(* The spec's scenario: X-WP-TotalPages: 3, one item a page. *)
Definition scenario_site : Externals :=
  scripted [page_of "3" [item 1 (rendered "A") (rendered "a")];
            page_of "3" [item 2 (rendered "B") (rendered "b")];
            page_of "3" [item 3 (rendered "C") (rendered "c")]].

(* A reader of pages only. *)
Definition pages_reader `{Externals} (limit : option Z) : Config :=
  example_reader true false None limit.

(* An item in the nested shape that has no id. *)
Definition no_id_item : PyVal :=
  PDict [("link", PStr "https://example.com/?p=7");
         ("modified", PStr "2024-01-01T00:00:00");
         ("title", rendered "T");
         ("content", rendered "c")].

(* The same with its title in the flat shape. *)
Definition flat_no_id_item : PyVal :=
  PDict [("link", PStr "https://example.com/?p=7");
         ("modified", PStr "2024-01-01T00:00:00");
         ("title", PStr "Hello");
         ("content", rendered "c")].

Definition server_error : Response :=
  {| status_code := 500; headers := []; json := None |}.

(* One page with the item that has no id. *)
Definition no_id_site : Externals := scripted [page_of "1" [no_id_item]].

(* Two pages: the first brings the item that has no id, the second is
   answered with a 500. *)
Definition failing_site : Externals :=
  scripted [page_of "2" [no_id_item]; server_error].

(* One page with the flat-titled item that has no id. *)
Definition flat_no_id_site : Externals :=
  scripted [page_of "1" [flat_no_id_item]].

(* A reader given additional_post_types="webinars," and nothing else. *)
Definition webinars_reader `{Externals} : Config :=
  example_reader false false (Some "webinars,") None.

(* What a run left behind: its result and the items it fetched. *)
Definition outcome_of {A} (run : option (Result A * World))
  : option (Result A * list PyVal) :=
  match run with
  | Some (out, w) => Some (out, items_of w)
  | None => None
  end.

(* A JSON value list.extend can walk: an array, an object or a string. *)
Definition is_iterable (v : PyVal) : bool :=
  match py_iter v with
  | Ok _ => true
  | Raise _ => false
  end.

(* A JSON object, the only value with a get method. *)
Definition is_dict (v : PyVal) : bool :=
  match v with
  | PDict _ => true
  | _ => false
  end.

(* A request load_data may make for a reader: some page, from 1 on, of
   one of its post types. *)
Definition configured_request (self : Config) (rq : Request) : Prop :=
  ∃ post_type page,
    post_type ∈ post_types self ∧ 1 ≤ page ∧
    rq = page_request self post_type page.

(* The page requests for each type in turn, where pages tells how many
   pages of a type are asked for. *)
Definition requests_for (self : Config) (pages : string → Z)
    (types : list string) : list Request :=
  flat_map (λ post_type,
              map (page_request self post_type) (seqZ 1 (pages post_type)))
           types.

(* A reader with a user name and an empty password. *)
Definition half_login : Config :=
  {| url := "https://example.com"; username := Some "admin";
     password := Some ""; page_limit := None; post_types := ["posts"] |}.

(* A reader with both credentials. *)
Definition full_login : Config :=
  {| url := "https://example.com"; username := Some "admin";
     password := Some "s3cret"; page_limit := None; post_types := ["posts"] |}.

(* An item without a title. *)
Definition untitled_item : PyVal :=
  PDict [("id", PInt 9);
         ("link", PStr "https://example.com/?p=9");
         ("modified", PStr "2024-01-01T00:00:00");
         ("content", rendered "c")].

(* A site whose page body is a JSON number. *)
Definition number_site : Externals :=
  constant {| status_code := 200; headers := []; json := Some (PInt 7) |}.

(* A site whose page brings a str where an item should be, then an item
   without an id. *)
Definition mixed_site : Externals :=
  scripted [page_of "1" [item 1 (rendered "A") (rendered "a");
                         PStr "oops"; no_id_item]].

(* A reader of pages and posts. *)
Definition both_reader `{Externals} (limit : option Z) : Config :=
  example_reader true true None limit.

(* ------------------------------------------------------------------ *)
(* The exchanges of a run                                              *)
(* ------------------------------------------------------------------ *)

(* The exchanges of asking the site, from the world w on, for n pages of
   post_type in a row, the first of them page: each answer is the one
   the site gives after the exchanges before it. *)
Fixpoint page_run `{Externals} (n : nat) (self : Config) (post_type : string)
    (page : Z) (w : World) : list Exchange :=
  match n with
  | O => []
  | S n =>
      let rq := page_request self post_type page in
      let x := (rq, respond w rq) in
      x :: page_run n self post_type (page + 1) (w ++ [x])
  end.

(* Every answer of these exchanges is a good page reporting total. *)
Definition all_good (xs : list Exchange) (total : Z) : Prop :=
  Forall (λ x, good_page (snd x) total) xs.

(* The exchanges of asking, for each type in turn, for its pages
   1 .. pages post_type. *)
Fixpoint types_run `{Externals} (self : Config) (pages : string → Z)
    (types : list string) (w : World) : list Exchange :=
  match types with
  | [] => []
  | post_type :: types =>
      let xs := page_run (Z.to_nat (pages post_type)) self post_type 1 w in
      xs ++ types_run self pages types (w ++ xs)
  end.

(* In those exchanges every answer for a type is a good page reporting
   the total of that type. *)
Fixpoint types_good `{Externals} (self : Config) (total : string → Z)
    (types : list string) (w : World) : Prop :=
  match types with
  | [] => True
  | post_type :: types =>
      let xs := page_run
                  (Z.to_nat (pages_to_fetch (total post_type) (page_limit self)))
                  self post_type 1 w in
      all_good xs (total post_type) ∧ types_good self total types (w ++ xs)
  end.

(* The first of id, link and modified an article lacks. *)
Definition first_missing (article : PyVal) : option string :=
  find (λ key, negb (has_field article key)) required_fields.

(* What line after line of the loop body raises for an article: the
   exception of the first step that fails, None when every step passes.
   The steps are the body, its text, the title, and the required fields
   in the order id, link, modified. *)
Definition first_error `{Externals} (article : PyVal) : option Exn :=
  match resolve_body article with
  | Raise e => Some e
  | Ok body =>
      match get_text body with
      | Raise e => Some e
      | Ok _ =>
          match resolve_title article with
          | Raise e => Some e
          | Ok _ =>
              match py_getitem article "id" with
              | Raise e => Some e
              | Ok _ =>
                  match py_getitem article "link" with
                  | Raise e => Some e
                  | Ok _ =>
                      match py_getitem article "modified" with
                      | Raise e => Some e
                      | Ok _ => None
                      end
                  end
              end
          end
      end
  end.

(* A site with two pages to each collection, asked for two collections:
   four good pages, and a 404 to whatever is asked after them. *)
Definition two_by_two_site : Externals :=
  scripted [page_of "2" [item 1 (rendered "A") (rendered "a")];
            page_of "2" [item 2 (rendered "B") (rendered "b")];
            page_of "2" [item 3 (rendered "C") (rendered "c")];
            page_of "2" [item 4 (rendered "D") (rendered "d")]].

(* The reader given additional_post_types="webinars," under page_limit=2. *)
Definition limited_webinars_reader `{Externals} : Config :=
  example_reader false false (Some "webinars,") (Some 2).

(* ================================================================== *)
(* Properties                                                          *)
(* ================================================================== *)

(* Shows that an answer that is given in full is a good page. *)
Ltac good_page_now :=
  cbn [snd]; do 3 eexists;
  (split; [reflexivity|]); (split; [reflexivity|]);
  (split; [vm_compute; reflexivity|]); (split; reflexivity).

Section Fetcher.
Context `{Externals}.

Lemma get_posts_page_world self post_type p w :
  snd (get_posts_page self post_type p w)
  = w ++ [(page_request self post_type p, respond w (page_request self post_type p))].
Proof. reflexivity. Qed.

(* A call of get_posts_page that returns, read backwards. *)
Lemma get_posts_page_ok self post_type p w res w' :
  get_posts_page self post_type p w = (Ok res, w') →
  ∃ response t,
    respond w (page_request self post_type p) = Ok response ∧
    raise_for_status response = Ok tt ∧
    num_pages response = Ok t ∧
    json response = Some (articles res) ∧
    next_page res = (if t >? p then Some (p + 1) else None) ∧
    w' = w ++ [(page_request self post_type p, Ok response)].
Proof.
  unfold get_posts_page, requests_get. cbn zeta.
  destruct (respond w (page_request self post_type p)) as [response|e] eqn:Hr;
    cbn; [|discriminate].
  destruct (raise_for_status response) as [[]|e] eqn:Hs; cbn; [|discriminate].
  destruct (num_pages response) as [t|e] eqn:Hn; cbn; [|discriminate].
  unfold response_json.
  destruct (json response) as [body|] eqn:Hj; cbn; [|discriminate].
  intros Heq. simplify_eq. exists response, t. cbn. repeat split; done.
Qed.

(* And forwards: a good answer makes the call return. *)
Lemma get_posts_page_good self post_type p w response t body :
  respond w (page_request self post_type p) = Ok response →
  raise_for_status response = Ok tt →
  num_pages response = Ok t →
  json response = Some body →
  get_posts_page self post_type p w
  = (Ok {| articles := body;
           next_page := if t >? p then Some (p + 1) else None |},
     w ++ [(page_request self post_type p, Ok response)]).
Proof.
  intros Hr Hs Hn Hj. unfold get_posts_page, requests_get. cbn zeta.
  rewrite Hr. cbn. rewrite Hs. cbn. rewrite Hn. cbn.
  unfold response_json. rewrite Hj. reflexivity.
Qed.

End Fetcher.

(** C7: a call of get_posts_page for page p that returns has read a total
    page count t from the response it got, and the next_page it returns
    is p + 1 when t > p and None when t <= p. *)
Theorem get_posts_page_next_page `{Externals} self post_type p w res w' :
  get_posts_page self post_type p w = (Ok res, w') →
  ∃ response t,
    respond w (page_request self post_type p) = Ok response ∧
    num_pages response = Ok t ∧
    (t > p → next_page res = Some (p + 1)) ∧
    (t ≤ p → next_page res = None).
Proof.
  intros Hrun.
  destruct (get_posts_page_ok _ _ _ _ _ _ Hrun)
    as (response & t & Hr & _ & Hn & _ & Hnext & _).
  exists response, t. split; [exact Hr|]. split; [exact Hn|].
  rewrite Hnext. destruct (Z.gtb_spec t p) as [Hgt|Hle].
  - split; [reflexivity|lia].
  - split; [lia|reflexivity].
Qed.

Lemma get_posts_page_next_page_witness :
  ∃ response t,
    respond (Externals := three_page_site) []
      (page_request (posts_reader (H := three_page_site) None) "posts" 1)
    = Ok response ∧
    num_pages response = Ok t ∧
    (t > 1 → next_page {| articles := PList []; next_page := Some 2 |} = Some (1 + 1)) ∧
    (t ≤ 1 → next_page {| articles := PList []; next_page := Some 2 |} = None).
Proof.
  apply (get_posts_page_next_page (H := three_page_site)
           (posts_reader (H := three_page_site) None) "posts" 1 []
           {| articles := PList []; next_page := Some 2 |}
           [(page_request (posts_reader (H := three_page_site) None) "posts" 1,
             Ok (page_of "3" []))]).
  vm_compute. reflexivity.
Defined.

(** C1 (amended): on a successful response, when the X-WP-TotalPages
    header is absent the total page count is 1 and the header raises no
    error (the call returns the body with next_page None for every page
    p >= 1, or fails only because the body is not JSON); when the header
    is present and int() reads it as t, the count is t; when the header is
    present and int() cannot read it, the call raises ValueError. *)
Theorem get_posts_page_total_pages `{Externals} self post_type p w response :
  respond w (page_request self post_type p) = Ok response →
  raise_for_status response = Ok tt →
  let outcome t :=
    match json response with
    | Some body =>
        Ok {| articles := body;
              next_page := if t >? p then Some (p + 1) else None |}
    | None => Raise JSONDecodeError
    end in
  match header_lookup (headers response) "X-WP-TotalPages" with
  | None =>
      num_pages response = Ok 1 ∧
      fst (get_posts_page self post_type p w) = outcome 1
  | Some v =>
      match int_of_str v with
      | Some t =>
          num_pages response = Ok t ∧
          fst (get_posts_page self post_type p w) = outcome t
      | None =>
          num_pages response = Raise ValueError ∧
          fst (get_posts_page self post_type p w) = Raise ValueError
      end
  end.
Proof.
  intros Hr Hs outcome.
  assert (Hrun : ∀ t, num_pages response = Ok t →
            fst (get_posts_page self post_type p w) = outcome t).
  { intros t Hn. unfold get_posts_page, requests_get, outcome. cbn zeta.
    rewrite Hr. cbn. rewrite Hs. cbn. rewrite Hn. cbn.
    unfold response_json. destruct (json response); reflexivity. }
  assert (Hfail : num_pages response = Raise ValueError →
            fst (get_posts_page self post_type p w) = Raise ValueError).
  { intros Hn. unfold get_posts_page, requests_get. cbn zeta.
    rewrite Hr. cbn. rewrite Hs. cbn. rewrite Hn. reflexivity. }
  unfold num_pages, headers_get in *.
  destruct (header_lookup (headers response) "X-WP-TotalPages") as [v|].
  - cbn [py_int] in *. destruct (int_of_str v) as [t|].
    + split; [reflexivity|]. apply Hrun. reflexivity.
    + split; [reflexivity|]. apply Hfail. reflexivity.
  - split; [reflexivity|]. apply Hrun. reflexivity.
Qed.

Lemma get_posts_page_total_pages_witness :
  num_pages bare_page = Ok 1 ∧
  fst (get_posts_page (H := bare_site) (posts_reader (H := bare_site) None) "posts" 1 [])
  = Ok {| articles := PList []; next_page := None |}.
Proof.
  exact (get_posts_page_total_pages (H := bare_site)
           (posts_reader (H := bare_site) None) "posts" 1 [] bare_page
           eq_refl eq_refl).
Defined.

Lemma unparseable_total_pages_raises :
  raise_for_status (page_of "abc" []) = Ok tt ∧
  header_lookup (headers (page_of "abc" [])) "X-WP-TotalPages" = Some "abc" ∧
  int_of_str "abc" = None ∧
  fst (get_posts_page (H := garbled_site)
         (posts_reader (H := garbled_site) None) "posts" 1 [])
  = Raise ValueError.
Proof. vm_compute. repeat split; reflexivity. Qed.

Section Pagination.
Context `{Externals}.

Lemma exchange_items_ok rq response body items :
  json response = Some body → py_iter body = Ok items →
  exchange_items (rq, Ok response) = items.
Proof.
  intros Hj Hi. unfold exchange_items, response_json. cbn.
  rewrite Hj, Hi. reflexivity.
Qed.

(* A run of the loop that returns: it made at least one exchange, the
   requests were for consecutive pages from next_page on, and the posts
   gained the items of those exchanges in that order. *)
Lemma get_all_posts_loop_ok fuel self post_type :
  ∀ posts p f w posts' w',
    get_all_posts_loop fuel self post_type posts p f w = Some (Ok posts', w') →
    ∃ xs, xs ≠ [] ∧ w' = w ++ xs ∧
          requests_of xs
          = map (page_request self post_type) (seqZ p (Z.of_nat (length xs))) ∧
          posts' = posts ++ items_of xs.
Proof.
  induction fuel as [|fuel IH]; intros posts p f w posts' w' Hrun;
    [discriminate|].
  cbn [get_all_posts_loop] in Hrun.
  destruct (get_posts_page self post_type p w) as [[[body np]|e] w1] eqn:Hpage;
    [|discriminate].
  destruct (get_posts_page_ok _ _ _ _ _ _ Hpage)
    as (response & t & _ & _ & _ & Hj & Hnext & ->).
  cbn in Hj, Hnext.
  destruct (py_iter body) as [items|e] eqn:Hiter; [|discriminate].
  pose proof (exchange_items_ok (page_request self post_type p) _ _ _ Hj Hiter)
    as Hitems.
  assert (Hone : ∃ xs, xs ≠ [] ∧
            w ++ [(page_request self post_type p, Ok response)] = w ++ xs ∧
            requests_of xs
            = map (page_request self post_type) (seqZ p (Z.of_nat (length xs))) ∧
            posts ++ items = posts ++ items_of xs).
  { exists [(page_request self post_type p, Ok response)].
    repeat split; [done|].
    unfold items_of. cbn [flat_map]. rewrite Hitems, app_nil_r. reflexivity. }
  assert (Hmore : ∀ q, np = Some q →
            get_all_posts_loop fuel self post_type (posts ++ items) q (f + 1)
              (w ++ [(page_request self post_type p, Ok response)])
            = Some (Ok posts', w') →
            ∃ xs, xs ≠ [] ∧ w' = w ++ xs ∧
              requests_of xs
              = map (page_request self post_type) (seqZ p (Z.of_nat (length xs))) ∧
              posts' = posts ++ items_of xs).
  { intros q Hq Hrec.
    assert (q = p + 1) as ->.
    { rewrite Hq in Hnext. destruct (t >? p); congruence. }
    destruct (IH _ _ _ _ _ _ Hrec) as (xs & _ & -> & Hreq & ->).
    exists ((page_request self post_type p, Ok response) :: xs).
    split; [done|]. split; [by rewrite <- app_assoc|]. split.
    - cbn [length requests_of map fst]. rewrite Nat2Z.inj_succ.
      rewrite seqZ_cons by lia. cbn [map]. f_equal.
      rewrite Z.pred_succ. unfold requests_of in Hreq. rewrite Hreq.
      reflexivity.
    - unfold items_of. cbn [flat_map]. rewrite Hitems, app_assoc. reflexivity. }
  destruct np as [q|].
  - destruct (page_limit self) as [limit|].
    + destruct (f + 1 >=? limit).
      * simplify_eq. exact Hone.
      * eauto.
    + eauto.
  - simplify_eq. exact Hone.
Qed.

(* Whatever the outcome, a run of the loop first asks for next_page. *)
Lemma get_all_posts_loop_first fuel self post_type posts p f w out w' :
  get_all_posts_loop fuel self post_type posts p f w = Some (out, w') →
  ∃ r rest, w' = w ++ (page_request self post_type p, r) :: rest.
Proof.
  revert posts p f w.
  induction fuel as [|fuel IH]; intros posts p f w Hrun; [discriminate|].
  cbn [get_all_posts_loop] in Hrun.
  pose proof (get_posts_page_world self post_type p w) as Hw.
  destruct (get_posts_page self post_type p w) as [[[body np]|e] w1].
  2: { simplify_eq. cbn in *. subst. eauto. }
  cbn in Hw. subst w1.
  destruct (py_iter body) as [items|e]; [|simplify_eq; eauto].
  assert (Hmore : ∀ q,
            get_all_posts_loop fuel self post_type (posts ++ items) q (f + 1)
              (w ++ [(page_request self post_type p,
                      respond w (page_request self post_type p))])
            = Some (out, w') →
            ∃ r rest, w' = w ++ (page_request self post_type p, r) :: rest).
  { intros q Hrec. destruct (IH _ _ _ _ Hrec) as (r & rest & ->).
    rewrite <- app_assoc. cbn. eauto. }
  destruct np as [q|]; [|simplify_eq; eauto].
  destruct (page_limit self) as [limit|]; [|eauto].
  destruct (f + 1 >=? limit); [simplify_eq; eauto|eauto].
Qed.

End Pagination.

Section PageCount.
Context `{Externals}.


Lemma page_run_requests n self post_type :
  ∀ page w,
    requests_of (page_run n self post_type page w)
    = map (page_request self post_type) (seqZ page (Z.of_nat n)).
Proof.
  induction n as [|n IH]; intros page w; [reflexivity|].
  cbn [page_run requests_of map fst]. rewrite Nat2Z.inj_succ.
  rewrite seqZ_cons by lia. cbn [map]. f_equal.
  rewrite Z.pred_succ. unfold requests_of in IH. rewrite IH. reflexivity.
Qed.

(* A site that serves a type answers every run of page requests well. *)
Lemma serves_all_good n self post_type total :
  serves self post_type total →
  ∀ page w, 1 ≤ page → all_good (page_run n self post_type page w) total.
Proof.
  intros Hserves. induction n as [|n IH]; intros page w Hpage; [constructor|].
  cbn [page_run]. constructor; [apply Hserves; exact Hpage|]. apply IH. lia.
Qed.

(* When the answers to the pages left up to pages_to_fetch are good, the
   loop returns once it may iterate that often, having made exactly
   those exchanges and gained their items. *)
Lemma get_all_posts_loop_run self post_type total r :
  ∀ fuel posts p w,
    1 ≤ p →
    Z.of_nat r = pages_to_fetch total (page_limit self) - p + 1 →
    (1 ≤ r ≤ fuel)%nat →
    all_good (page_run r self post_type p w) total →
    get_all_posts_loop fuel self post_type posts p (p - 1) w
    = Some (Ok (posts ++ items_of (page_run r self post_type p w)),
            w ++ page_run r self post_type p w).
Proof.
  induction r as [|r IH]; intros fuel posts p w Hp Hr Hfuel Hgood; [lia|].
  destruct fuel as [|fuel]; [lia|].
  cbn [page_run] in *. apply Forall_cons in Hgood as [Hpage Hrest].
  destruct Hpage as (response & body & items & Hresp & Hs & Hn & Hj & Hi).
  cbn [snd] in Hresp. rewrite Hresp in *.
  cbn [get_all_posts_loop].
  rewrite (get_posts_page_good _ _ _ _ _ _ _ Hresp Hs Hn Hj), Hi.
  pose proof (exchange_items_ok (page_request self post_type p) _ _ _ Hj Hi)
    as Hitems.
  assert (Hstop : pages_to_fetch total (page_limit self) = p →
            Some (Ok (posts ++ items),
                  w ++ [(page_request self post_type p, Ok response)])
            = Some (Ok (posts ++
                        items_of
                          ((page_request self post_type p, Ok response)
                           :: page_run r self post_type (p + 1)
                                (w ++ [(page_request self post_type p,
                                        Ok response)]))),
                    w ++ (page_request self post_type p, Ok response)
                      :: page_run r self post_type (p + 1)
                           (w ++ [(page_request self post_type p,
                                   Ok response)]))).
  { intros Hk. assert (r = 0%nat) as -> by lia. cbn [page_run].
    unfold items_of. cbn [flat_map]. rewrite Hitems, app_nil_r. reflexivity. }
  assert (Hgo : p + 1 ≤ pages_to_fetch total (page_limit self) →
            get_all_posts_loop fuel self post_type (posts ++ items) (p + 1)
              (p - 1 + 1)
              (w ++ [(page_request self post_type p, Ok response)])
            = Some (Ok (posts ++
                        items_of
                          ((page_request self post_type p, Ok response)
                           :: page_run r self post_type (p + 1)
                                (w ++ [(page_request self post_type p,
                                        Ok response)]))),
                    w ++ (page_request self post_type p, Ok response)
                      :: page_run r self post_type (p + 1)
                           (w ++ [(page_request self post_type p,
                                   Ok response)]))).
  { intros Hk. replace (p - 1 + 1) with (p + 1 - 1) by lia.
    rewrite (IH fuel (posts ++ items) (p + 1)
               (w ++ [(page_request self post_type p, Ok response)]));
      [|lia|lia|lia|exact Hrest].
    unfold items_of. cbn [flat_map]. rewrite Hitems, <- !app_assoc.
    reflexivity. }
  unfold pages_to_fetch in *.
  destruct (Z.gtb_spec total p) as [Hgt|Hle].
  - destruct (page_limit self) as [limit|].
    + destruct (Z.geb_spec (p - 1 + 1) limit).
      * apply Hstop. lia.
      * apply Hgo. lia.
    + apply Hgo. lia.
  - destruct (page_limit self) as [limit|]; apply Hstop; lia.
Qed.

(* get_all_posts against good answers to pages 1 .. pages_to_fetch. *)
Lemma get_all_posts_run fuel self post_type total w :
  (∀ n, page_limit self = Some n → 1 ≤ n) →
  all_good (page_run (Z.to_nat (pages_to_fetch total (page_limit self)))
              self post_type 1 w) total →
  (Z.to_nat (pages_to_fetch total (page_limit self)) ≤ fuel)%nat →
  1 ≤ pages_to_fetch total (page_limit self) ∧
  get_all_posts fuel self post_type w
  = Some (Ok (items_of
                (page_run (Z.to_nat (pages_to_fetch total (page_limit self)))
                   self post_type 1 w)),
          w ++ page_run (Z.to_nat (pages_to_fetch total (page_limit self)))
                 self post_type 1 w).
Proof.
  intros Hlimit Hgood Hfuel.
  assert (Hk : 1 ≤ pages_to_fetch total (page_limit self)).
  { unfold pages_to_fetch. destruct (page_limit self) as [n|]; [|lia].
    specialize (Hlimit n eq_refl). lia. }
  split; [exact Hk|]. unfold get_all_posts. change 0 with (1 - 1).
  rewrite (get_all_posts_loop_run self post_type total
             (Z.to_nat (pages_to_fetch total (page_limit self))) fuel [] 1 w);
    [reflexivity|lia|lia|lia|exact Hgood].
Qed.

End PageCount.




Section Loading.
Context `{Externals}.

Lemma get_all_posts_ok fuel self post_type w posts w' :
  get_all_posts fuel self post_type w = Some (Ok posts, w') →
  ∃ xs, xs ≠ [] ∧ w' = w ++ xs ∧
        requests_of xs
        = map (page_request self post_type) (seqZ 1 (Z.of_nat (length xs))) ∧
        posts = items_of xs.
Proof.
  intros Hrun. unfold get_all_posts in Hrun.
  destruct (get_all_posts_loop_ok _ _ _ _ _ _ _ _ _ Hrun)
    as (xs & Hne & Hw & Hreq & Hposts).
  exists xs. auto.
Qed.

(* The first loop of load_data over a list of types cut in two. *)
Lemma fetch_articles_app fuel self pre rest :
  ∀ articles w,
    fetch_articles fuel self (pre ++ rest) articles w
    = match fetch_articles fuel self pre articles w with
      | Some (Ok articles', w') => fetch_articles fuel self rest articles' w'
      | other => other
      end.
Proof.
  induction pre as [|post_type pre IH]; intros articles w; [reflexivity|].
  cbn [app fetch_articles].
  destruct (get_all_posts fuel self post_type w) as [[[posts|e] w1]|];
    [apply IH|reflexivity..].
Qed.

(* A first loop that completes: one run of exchanges per type, in the
   order of the types; each run asks for pages 1, 2, ... of its type;
   the articles gained are the items of the runs, in order. *)
Lemma fetch_articles_ok fuel self types :
  ∀ articles w articles' w',
    fetch_articles fuel self types articles w = Some (Ok articles', w') →
    ∃ runs : list (list Exchange),
      w' = w ++ concat runs ∧
      articles' = articles ++ items_of (concat runs) ∧
      Forall2 (λ post_type xs,
                 xs ≠ [] ∧
                 requests_of xs
                 = map (page_request self post_type)
                     (seqZ 1 (Z.of_nat (length xs))))
              types runs.
Proof.
  induction types as [|post_type types IH]; intros articles w articles' w' Hrun.
  - cbn in Hrun. simplify_eq. exists []. cbn.
    rewrite !app_nil_r. repeat split. constructor.
  - cbn [fetch_articles] in Hrun.
    destruct (get_all_posts fuel self post_type w) as [[[posts|e] w1]|] eqn:Hposts;
      [|discriminate..].
    destruct (get_all_posts_ok _ _ _ _ _ _ Hposts) as (xs & Hne & -> & Hreq & ->).
    destruct (IH _ _ _ _ Hrun) as (runs & -> & -> & Hruns).
    exists (xs :: runs). cbn [concat]. unfold items_of.
    rewrite flat_map_app, !app_assoc.
    split; [reflexivity|]. split; [reflexivity|]. constructor; auto.
Qed.

(* Whatever its outcome, the first loop only adds exchanges. *)
Lemma get_all_posts_first fuel self post_type w out w' :
  get_all_posts fuel self post_type w = Some (out, w') →
  ∃ r rest, w' = w ++ (page_request self post_type 1, r) :: rest.
Proof. apply get_all_posts_loop_first. Qed.

Lemma fetch_articles_grows fuel self types :
  ∀ articles w out w',
    fetch_articles fuel self types articles w = Some (out, w') →
    ∃ xs, w' = w ++ xs.
Proof.
  induction types as [|post_type types IH]; intros articles w out w' Hrun.
  - cbn in Hrun. simplify_eq. exists []. by rewrite app_nil_r.
  - cbn [fetch_articles] in Hrun.
    destruct (get_all_posts fuel self post_type w) as [[[posts|e] w1]|] eqn:Hposts;
      [|simplify_eq..].
    + destruct (get_all_posts_first _ _ _ _ _ _ Hposts) as (r & rest & ->).
      destruct (IH _ _ _ _ Hrun) as (xs & ->).
      rewrite <- app_assoc. eauto.
    + destruct (get_all_posts_first _ _ _ _ _ _ Hposts) as (r & rest & ->). eauto.
Qed.

(* The second loop: what it returns extends the results by one Document
   for each article, in order. *)
Lemma process_articles_ok articles :
  ∀ results docs,
    process_articles articles results = Ok docs →
    ∃ new, docs = results ++ new ∧
           Forall2 (λ article doc, normalize article = Ok doc) articles new.
Proof.
  induction articles as [|article articles IH]; intros results docs Hrun.
  - cbn in Hrun. simplify_eq. exists []. rewrite app_nil_r. split; constructor.
  - cbn [process_articles] in Hrun.
    destruct (normalize article) as [doc|e] eqn:Hdoc; [|discriminate].
    cbn in Hrun. destruct (IH _ _ Hrun) as (new & -> & Hnew).
    exists (doc :: new). rewrite <- app_assoc. split; [reflexivity|].
    constructor; assumption.
Qed.

(* The second loop stops at the first article that raises. *)
Lemma process_articles_raise pre article post e :
  ∀ results,
    Forall (λ x, ∃ doc, normalize x = Ok doc) pre →
    normalize article = Raise e →
    process_articles (pre ++ article :: post) results = Raise e.
Proof.
  induction pre as [|x pre IH]; intros results Hpre Hraise.
  - cbn. rewrite Hraise. reflexivity.
  - apply Forall_cons in Hpre as [[doc Hdoc] Hpre].
    cbn [app process_articles]. rewrite Hdoc. cbn. apply IH; assumption.
Qed.

(* One article that raises makes the whole loop raise. *)
Lemma process_articles_all_or_nothing articles :
  ∀ results,
    Exists (λ x, ∃ e, normalize x = Raise e) articles →
    ∃ e, process_articles articles results = Raise e.
Proof.
  induction articles as [|article articles IH]; intros results Hbad.
  - inversion Hbad.
  - cbn [process_articles].
    destruct (normalize article) as [doc|e] eqn:Hdoc; cbn; [|eauto].
    apply IH. apply Exists_cons in Hbad as [[e He]|Hbad]; [congruence|exact Hbad].
Qed.

(* An article read with article[...] is a dict, and a dict without the
   key raises KeyError. *)
Lemma resolve_body_dict article body :
  resolve_body article = Ok body → ∃ d, article = PDict d.
Proof. destruct article; try discriminate. eauto. Qed.

Lemma py_getitem_dict d key :
  has_field (PDict d) key = false →
  py_getitem (PDict d) key = Raise (KeyError key).
Proof.
  unfold has_field. cbn. destruct (assoc key d); [discriminate|reflexivity].
Qed.

Lemma has_field_ok article key :
  has_field article key = true → ∃ v, py_getitem article key = Ok v.
Proof.
  unfold has_field. destruct (py_getitem article key); [eauto|discriminate].
Qed.

(* An article that lacks a required field does not normalise. *)
Lemma normalize_missing article :
  missing_required article = true → ∃ e, normalize article = Raise e.
Proof.
  intros Hmiss. unfold normalize.
  destruct (resolve_body article) as [body|]; cbn; [|eauto].
  destruct (get_text body) as [txt|]; cbn; [|eauto].
  destruct (resolve_title article) as [title|]; cbn; [|eauto].
  unfold missing_required, has_field in Hmiss. cbn in Hmiss.
  destruct (py_getitem article "id"); cbn; [|eauto].
  destruct (py_getitem article "link"); cbn; [|eauto].
  destruct (py_getitem article "modified"); cbn; [discriminate|eauto].
Qed.

(* When its body, text and title resolve, what it raises is KeyError
   for the first of id, link and modified it lacks. *)
Lemma normalize_missing_key article body txt title :
  missing_required article = true →
  resolve_body article = Ok body → get_text body = Ok txt →
  resolve_title article = Ok title →
  ∃ key, key ∈ required_fields ∧ has_field article key = false ∧
         normalize article = Raise (KeyError key).
Proof.
  intros Hmiss Hbody Htxt Htitle.
  destruct (resolve_body_dict _ _ Hbody) as [d ->].
  unfold normalize. rewrite Hbody. cbn [bindR]. rewrite Htxt. cbn [bindR].
  rewrite Htitle. cbn [bindR].
  unfold missing_required, required_fields in *. cbn [existsb] in Hmiss.
  destruct (has_field (PDict d) "id") eqn:Hid.
  2: { exists "id". rewrite (py_getitem_dict _ _ Hid). set_solver. }
  destruct (has_field_ok _ _ Hid) as [v1 ->]. cbn [bindR].
  destruct (has_field (PDict d) "link") eqn:Hlink.
  2: { exists "link". rewrite (py_getitem_dict _ _ Hlink). set_solver. }
  destruct (has_field_ok _ _ Hlink) as [v2 ->]. cbn [bindR].
  destruct (has_field (PDict d) "modified") eqn:Hmod; [discriminate|].
  exists "modified". rewrite (py_getitem_dict _ _ Hmod). set_solver.
Qed.

(* With its body, text and title resolved, an article that lacks a
   required field raises KeyError for the first one it lacks. *)
Lemma normalize_first_missing article body txt title :
  missing_required article = true →
  resolve_body article = Ok body → get_text body = Ok txt →
  resolve_title article = Ok title →
  ∃ key, first_missing article = Some key ∧
         normalize article = Raise (KeyError key).
Proof.
  intros Hmiss Hbody Htxt Htitle.
  destruct (resolve_body_dict _ _ Hbody) as [d ->].
  unfold normalize. rewrite Hbody. cbn [bindR]. rewrite Htxt. cbn [bindR].
  rewrite Htitle. cbn [bindR].
  unfold missing_required, first_missing, required_fields in *.
  cbn [existsb find] in *.
  destruct (has_field (PDict d) "id") eqn:Hid; cbn [negb] in *.
  2: { exists "id". rewrite (py_getitem_dict _ _ Hid). split; reflexivity. }
  destruct (has_field_ok _ _ Hid) as [v1 ->]. cbn [bindR].
  destruct (has_field (PDict d) "link") eqn:Hlink; cbn [negb] in *.
  2: { exists "link". rewrite (py_getitem_dict _ _ Hlink). split; reflexivity. }
  destruct (has_field_ok _ _ Hlink) as [v2 ->]. cbn [bindR].
  destruct (has_field (PDict d) "modified") eqn:Hmod; [discriminate|].
  exists "modified". rewrite (py_getitem_dict _ _ Hmod). split; reflexivity.
Qed.

(* normalize raises what the first failing step of the loop body raises. *)
Lemma normalize_first_error article e :
  normalize article = Raise e ↔ first_error article = Some e.
Proof.
  unfold normalize, first_error.
  destruct (resolve_body article) as [body|]; cbn [bindR];
    [|split; congruence].
  destruct (get_text body) as [txt|]; cbn [bindR]; [|split; congruence].
  destruct (resolve_title article) as [title|]; cbn [bindR];
    [|split; congruence].
  destruct (py_getitem article "id") as [id|]; cbn [bindR];
    [|split; congruence].
  destruct (py_getitem article "link") as [link|]; cbn [bindR];
    [|split; congruence].
  destruct (py_getitem article "modified") as [modified|]; cbn [bindR];
    split; congruence.
Qed.

(* Among articles of which one does not normalise, there is a first. *)
Lemma first_failure articles :
  Exists (λ x, ∃ e, normalize x = Raise e) articles →
  ∃ pre article post e,
    articles = pre ++ article :: post ∧
    Forall (λ x, ∃ doc, normalize x = Ok doc) pre ∧
    normalize article = Raise e.
Proof.
  induction articles as [|x articles IH]; intros Hbad; [inversion Hbad|].
  destruct (normalize x) as [doc|e] eqn:Hx.
  - apply Exists_cons in Hbad as [[e He]|Hbad]; [congruence|].
    destruct (IH Hbad) as (pre & article & post & e & -> & Hpre & He).
    exists (x :: pre), article, post, e. split; [reflexivity|].
    split; [|exact He]. constructor; eauto.
  - exists [], x, articles, e. split; [reflexivity|]. split; [constructor|exact Hx].
Qed.

(* A set without elements is iterated as the empty list. *)
Lemma set_order_empty : set_order ∅ = [].
Proof.
  destruct (set_order ∅) as [|x l] eqn:Hl; [reflexivity|].
  assert (x ∈ (∅ : gset string)) by (apply set_order_elem; rewrite Hl; left).
  set_solver.
Qed.

(* Once the types before it are through, the first loop of load_data
   asks for page 1 of the next type. *)
Lemma load_data_reaches fuel self w pre post_type post articles w1 out w' :
  post_types self = pre ++ post_type :: post →
  fetch_articles fuel self pre [] w = Some (Ok articles, w1) →
  load_data fuel self w = Some (out, w') →
  ∃ r rest, w' = w1 ++ (page_request self post_type 1, r) :: rest.
Proof.
  intros Htypes Hpre. unfold load_data.
  rewrite Htypes, fetch_articles_app, Hpre. cbn [fetch_articles].
  destruct (get_all_posts fuel self post_type w1) as [[[posts|e] w2]|] eqn:Hposts;
    [| |discriminate].
  - destruct (get_all_posts_first _ _ _ _ _ _ Hposts) as (r & rest & ->).
    destruct (fetch_articles fuel self post (articles ++ posts)
                (w1 ++ (page_request self post_type 1, r) :: rest))
      as [[[articles'|e] w3]|] eqn:Hpost; [| |discriminate].
    + destruct (fetch_articles_grows _ _ _ _ _ _ _ Hpost) as (xs & ->).
      intros ?. simplify_eq. rewrite <- app_assoc. cbn. eauto.
    + destruct (fetch_articles_grows _ _ _ _ _ _ _ Hpost) as (xs & ->).
      intros ?. simplify_eq. rewrite <- app_assoc. cbn. eauto.
  - destruct (get_all_posts_first _ _ _ _ _ _ Hposts) as (r & rest & ->).
    intros ?. simplify_eq. eauto.
Qed.

End Loading.

(** C8: a run of load_data that returns documents has made one run of
    exchanges per configured post type, in the order of post_types, each
    run asking for pages 1, 2, ... of its type in turn; the documents are
    the normalised items of those exchanges, one document per item and in
    the order the items came in; and a reader built by the constructor
    has every type in post_types once. *)
Theorem load_data_order `{Externals} fuel self w docs w' :
  load_data fuel self w = Some (Ok docs, w') →
  ∃ runs : list (list Exchange),
    w' = w ++ concat runs ∧
    Forall2 (λ post_type xs,
               xs ≠ [] ∧
               requests_of xs
               = map (page_request self post_type)
                   (seqZ 1 (Z.of_nat (length xs))))
            (post_types self) runs ∧
    Forall2 (λ article doc, normalize article = Ok doc)
            (items_of (concat runs)) docs ∧
    length docs = length (items_of (concat runs)) ∧
    (∀ url username password get_pages get_posts additional limit,
       self = __init__ url username password get_pages get_posts additional limit →
       NoDup (post_types self)).
Proof.
  unfold load_data. intros Hrun.
  destruct (fetch_articles fuel self (post_types self) [] w)
    as [[[articles|e] w1]|] eqn:Hfetch; [|discriminate..].
  destruct (fetch_articles_ok _ _ _ _ _ _ _ Hfetch) as (runs & Hw & Harts & Hruns).
  cbn in Harts. subst articles.
  assert (Hdocs : process_articles (items_of (concat runs)) [] = Ok docs)
    by congruence.
  destruct (process_articles_ok _ _ _ Hdocs) as (new & Hnew & Hall).
  cbn in Hnew. subst new.
  exists runs. split; [congruence|]. split; [exact Hruns|].
  split; [exact Hall|]. split.
  - symmetry. eapply Forall2_length, Hall.
  - intros ? ? ? ? ? ? ? ->. apply set_order_NoDup.
Qed.

Lemma load_data_order_witness :
  ∃ runs : list (list Exchange),
    Forall2 (λ post_type xs,
               xs ≠ [] ∧
               requests_of xs
               = map (page_request (pages_reader (H := scenario_site) None) post_type)
                   (seqZ 1 (Z.of_nat (length xs))))
            ["pages"] runs ∧
    length (items_of (concat runs)) = 3%nat.
Proof.
  edestruct (load_data_order (H := scenario_site) 10
               (pages_reader (H := scenario_site) None) [])
    as (runs & _ & Hruns & _ & Hlen & _).
  - vm_compute. reflexivity.
  - exists runs. split; [exact Hruns|]. symmetry. exact Hlen.
Defined.

(** C5: a reader built with get_pages=False and get_posts=False and no
    additional post types (None, or the empty string) has no post type to
    fetch, and load_data returns the empty list of documents without
    making a single exchange. *)
Theorem load_data_nothing_to_fetch `{Externals} url username password limit fuel w :
  post_types (__init__ url username password false false None limit) = [] ∧
  load_data fuel (__init__ url username password false false None limit) w
  = Some (Ok [], w) ∧
  load_data fuel (__init__ url username password false false (Some "") limit) w
  = Some (Ok [], w).
Proof.
  assert (Hnone : post_types
            (__init__ url username password false false None limit) = [])
    by apply set_order_empty.
  assert (Hblank : post_types
            (__init__ url username password false false (Some "") limit) = [])
    by apply set_order_empty.
  split; [exact Hnone|].
  unfold load_data. rewrite Hnone, Hblank. split; reflexivity.
Qed.

(** C6 (amended): when the fetches of a run of load_data all succeed and
    some fetched article lacks id, link or modified, the call raises and
    returns no document at all.  What it raises is the error met first:
    that of the first article, in fetch order, that does not normalise,
    at the first step that fails for it (body, text, title, then id,
    link, modified).  So it is KeyError for the first of id, link and
    modified an article lacks when every article before that one
    normalises and its own body, text and title resolve. *)
Theorem load_data_missing_field `{Externals} fuel self w articles w' :
  fetch_articles fuel self (post_types self) [] w = Some (Ok articles, w') →
  Exists (λ article, missing_required article = true) articles →
  (∃ pre article post e,
     articles = pre ++ article :: post ∧
     Forall (λ x, ∃ doc, normalize x = Ok doc) pre ∧
     first_error article = Some e ∧
     load_data fuel self w = Some (Raise e, w')) ∧
  (∀ pre article post body txt title,
     articles = pre ++ article :: post →
     Forall (λ x, ∃ doc, normalize x = Ok doc) pre →
     missing_required article = true →
     resolve_body article = Ok body → get_text body = Ok txt →
     resolve_title article = Ok title →
     ∃ key, first_missing article = Some key ∧
            load_data fuel self w = Some (Raise (KeyError key), w')).
Proof.
  intros Hfetch Hbad. unfold load_data. rewrite Hfetch. split.
  - destruct (first_failure articles) as (pre & article & post & e & -> & Hpre & He).
    + eapply Exists_impl; [exact Hbad|]. apply normalize_missing.
    + exists pre, article, post, e. split; [reflexivity|]. split; [exact Hpre|].
      split; [apply normalize_first_error; exact He|].
      rewrite (process_articles_raise _ _ _ _ [] Hpre He). reflexivity.
  - intros pre article post body txt title -> Hpre Hmiss Hbody Htxt Htitle.
    destruct (normalize_first_missing _ _ _ _ Hmiss Hbody Htxt Htitle)
      as (key & Hkey & Hraise).
    exists key. split; [exact Hkey|].
    rewrite (process_articles_raise _ _ _ _ [] Hpre Hraise). reflexivity.
Qed.

Lemma load_data_missing_field_witness :
  ∃ w',
    load_data (H := no_id_site) 5 (posts_reader (H := no_id_site) None) []
    = Some (Raise (KeyError "id"), w').
Proof.
  destruct (load_data_missing_field (H := no_id_site) 5
              (posts_reader (H := no_id_site) None) [] [no_id_item]
              [(page_request (posts_reader (H := no_id_site) None) "posts" 1,
                Ok (page_of "1" [no_id_item]))])
    as [_ Hkey].
  - vm_compute. reflexivity.
  - apply Exists_cons_hd. reflexivity.
  - destruct (Hkey [] no_id_item [] (PStr "c") "c" (PStr "T") eq_refl
                (Forall_nil_2 _) eq_refl eq_refl eq_refl eq_refl)
      as (key & Hfirst & Hrun).
    vm_compute in Hfirst. injection Hfirst as <-. eexists. exact Hrun.
Defined.

Lemma other_error_comes_first :
  missing_required no_id_item = true ∧
  outcome_of (load_data (H := failing_site) 5
                (posts_reader (H := failing_site) None) [])
  = Some (Raise (HTTPError 500), [no_id_item]) ∧
  missing_required flat_no_id_item = true ∧
  outcome_of (load_data (H := flat_no_id_site) 5
                (posts_reader (H := flat_no_id_site) None) [])
  = Some (Raise AttributeError, [flat_no_id_item]).
Proof. vm_compute. repeat split; reflexivity. Qed.

Section Limit.
Context `{Externals}.

(* Under a page limit the loop returns, whatever the site answers, once
   it may iterate as often as the limit leaves pages to fetch. *)
Lemma get_all_posts_loop_limit self post_type n :
  page_limit self = Some n →
  ∀ fuel posts p f w,
    0 ≤ f → (Z.to_nat (Z.max (n - f) 1) ≤ fuel)%nat →
    ∃ out w',
      get_all_posts_loop fuel self post_type posts p f w = Some (out, w') ∧
      (length w' ≤ length w + Z.to_nat (Z.max (n - f) 1))%nat.
Proof.
  intros Hlimit.
  induction fuel as [|fuel IH]; intros posts p f w Hf Hfuel; [lia|].
  cbn [get_all_posts_loop].
  pose proof (get_posts_page_world self post_type p w) as Hw.
  destruct (get_posts_page self post_type p w) as [[[body np]|e] w1];
    cbn in Hw; subst w1.
  2: { eexists _, _. split; [reflexivity|]. rewrite length_app. cbn. lia. }
  destruct (py_iter body) as [items|e].
  2: { eexists _, _. split; [reflexivity|]. rewrite length_app. cbn. lia. }
  destruct np as [q|].
  2: { eexists _, _. split; [reflexivity|]. rewrite length_app. cbn. lia. }
  rewrite Hlimit. destruct (Z.geb_spec (f + 1) n).
  { eexists _, _. split; [reflexivity|]. rewrite length_app. cbn. lia. }
  destruct (IH (posts ++ items) q (f + 1)
              (w ++ [(page_request self post_type p,
                      respond w (page_request self post_type p))]))
    as (out & w' & -> & Hlen); [lia..|].
  exists out, w'. split; [reflexivity|].
  rewrite length_app in Hlen. cbn in Hlen. lia.
Qed.

Lemma get_all_posts_limit_returns self post_type n fuel w :
  page_limit self = Some n →
  (Z.to_nat (Z.max n 1) ≤ fuel)%nat →
  ∃ out w', get_all_posts fuel self post_type w = Some (out, w') ∧
            (length w' ≤ length w + Z.to_nat (Z.max n 1))%nat.
Proof.
  intros Hlimit Hfuel. unfold get_all_posts.
  destruct (get_all_posts_loop_limit self post_type n Hlimit fuel [] 1 0 w)
    as (out & w' & Hrun & Hlen); [lia| |].
  - replace (n - 0) with n by lia. exact Hfuel.
  - exists out, w'. split; [exact Hrun|].
    replace (n - 0) with n in Hlen by lia. exact Hlen.
Qed.

(* And so do the first loop of load_data and load_data itself. *)
Lemma fetch_articles_limit_returns self n fuel types :
  page_limit self = Some n →
  (Z.to_nat (Z.max n 1) ≤ fuel)%nat →
  ∀ articles w,
    ∃ out w', fetch_articles fuel self types articles w = Some (out, w').
Proof.
  intros Hlimit Hfuel. induction types as [|post_type types IH]; intros articles w.
  - cbn. eauto.
  - cbn [fetch_articles].
    destruct (get_all_posts_limit_returns self post_type n fuel w Hlimit Hfuel)
      as ([posts|e] & w1 & -> & _); [apply IH|eauto].
Qed.

(* Under a page limit, load_data gets to each of its post types unless
   the fetch of a type before it raised: it returns, and the request for
   page 1 of the type is among those it made, or what it returns is the
   exception of an earlier type. *)
Lemma load_data_limit_reaches self n fuel w post_type :
  page_limit self = Some n →
  (Z.to_nat (Z.max n 1) ≤ fuel)%nat →
  post_type ∈ post_types self →
  ∃ out w',
    load_data fuel self w = Some (out, w') ∧
    ((∃ before r after,
        w' = w ++ before ++ (page_request self post_type 1, r) :: after) ∨
     (∃ e pre post,
        post_types self = pre ++ post_type :: post ∧
        fetch_articles fuel self pre [] w = Some (Raise e, w') ∧
        out = Raise e)).
Proof.
  intros Hlimit Hfuel Hin.
  apply list_elem_of_split in Hin as (pre & post & Htypes).
  destruct (fetch_articles_limit_returns self n fuel pre Hlimit Hfuel [] w)
    as ([articles|e] & w1 & Hpre).
  - destruct (fetch_articles_limit_returns self n fuel (post_type :: post)
                Hlimit Hfuel articles w1) as (r & w' & Hrest).
    assert (Hrun : load_data fuel self w
                   = Some (match r with
                           | Ok articles' => process_articles articles' []
                           | Raise e => Raise e
                           end, w')).
    { unfold load_data. rewrite Htypes, fetch_articles_app, Hpre, Hrest.
      destruct r; reflexivity. }
    eexists _, w'. split; [exact Hrun|]. left.
    destruct (fetch_articles_grows _ _ _ _ _ _ _ Hpre) as (before & ->).
    destruct (load_data_reaches _ _ _ _ _ _ _ _ _ _ Htypes Hpre Hrun)
      as (r' & after & ->).
    exists before, r', after. by rewrite <- app_assoc.
  - exists (Raise e), w1. split.
    + unfold load_data. rewrite Htypes, fetch_articles_app, Hpre. reflexivity.
    + right. exists e, pre, post. auto.
Qed.

(* When the request for page 1 of a type raises, load_data raises the
   same, as soon as the types before it are through. *)
Lemma load_data_first_page_raises fuel self w pre post_type post articles w1 e w2 :
  post_types self = pre ++ post_type :: post →
  fetch_articles (S fuel) self pre [] w = Some (Ok articles, w1) →
  get_posts_page self post_type 1 w1 = (Raise e, w2) →
  load_data (S fuel) self w = Some (Raise e, w2).
Proof.
  intros Htypes Hpre Hpage. unfold load_data.
  rewrite Htypes, fetch_articles_app, Hpre. cbn [fetch_articles].
  unfold get_all_posts. cbn [get_all_posts_loop]. rewrite Hpage. reflexivity.
Qed.

End Limit.

(** C10: an additional_post_types string with a blank entry, such as
    "webinars," with its trailing comma, puts the empty string among the
    post types of the reader, and the request for its first page goes to
    url/wp-json/wp/v2/?per_page=100&page=1.  load_data makes that
    request: under a page limit it returns, and the request is among
    those it made unless the fetch of a type before it raised; without a
    limit, whenever it returns after getting through the types before
    it; and when that request raises, load_data raises the same. *)
Theorem blank_entry_is_fetched `{Externals} url username password get_pages
    get_posts additional limit :
  additional ≠ "" → has_blank_entry additional →
  "" ∈ post_types (__init__ url username password get_pages get_posts
                     (Some additional) limit) ∧
  req_url (page_request (__init__ url username password get_pages get_posts
                           (Some additional) limit) "" 1)
  = url +:+ "/wp-json/wp/v2/?per_page=100&page=1" ∧
  (∀ n fuel w,
     limit = Some n → (Z.to_nat (Z.max n 1) ≤ fuel)%nat →
     ∃ out w',
       load_data fuel (__init__ url username password get_pages get_posts
                         (Some additional) limit) w = Some (out, w') ∧
       ((∃ before r after,
           w' = w ++ before ++
                (page_request (__init__ url username password get_pages
                                 get_posts (Some additional) limit) "" 1, r)
                :: after) ∨
        (∃ e pre post,
           post_types (__init__ url username password get_pages get_posts
                         (Some additional) limit) = pre ++ "" :: post ∧
           fetch_articles fuel (__init__ url username password get_pages
                                  get_posts (Some additional) limit) pre [] w
           = Some (Raise e, w') ∧
           out = Raise e))) ∧
  (∀ fuel w pre post articles w1 e w2,
     post_types (__init__ url username password get_pages get_posts
                   (Some additional) limit) = pre ++ "" :: post →
     fetch_articles (S fuel) (__init__ url username password get_pages
                                get_posts (Some additional) limit) pre [] w
     = Some (Ok articles, w1) →
     get_posts_page (__init__ url username password get_pages get_posts
                       (Some additional) limit) "" 1 w1 = (Raise e, w2) →
     load_data (S fuel) (__init__ url username password get_pages get_posts
                           (Some additional) limit) w = Some (Raise e, w2)) ∧
  (∀ fuel w pre post articles w1 out w',
     post_types (__init__ url username password get_pages get_posts
                   (Some additional) limit) = pre ++ "" :: post →
     fetch_articles fuel (__init__ url username password get_pages get_posts
                            (Some additional) limit) pre [] w
     = Some (Ok articles, w1) →
     load_data fuel (__init__ url username password get_pages get_posts
                       (Some additional) limit) w = Some (out, w') →
     ∃ r rest,
       w' = w1 ++ (page_request (__init__ url username password get_pages
                                   get_posts (Some additional) limit) "" 1, r)
                  :: rest).
Proof.
  intros Hne Hblank.
  assert (Hin : "" ∈ post_types (__init__ url username password get_pages
                                   get_posts (Some additional) limit)).
  { unfold __init__. cbn [post_types]. apply set_order_elem.
    assert (truthy_opt (Some additional) = true) as ->.
    { cbn. destruct additional; [congruence|reflexivity]. }
    apply elem_of_union_r, elem_of_list_to_set. exact Hblank. }
  split; [exact Hin|]. split; [reflexivity|]. split; [|split].
  - intros n fuel w -> Hfuel.
    apply (load_data_limit_reaches _ n); [reflexivity|exact Hfuel|exact Hin].
  - intros fuel w pre post articles w1 e w2 Htypes Hpre Hpage.
    exact (load_data_first_page_raises _ _ _ _ _ _ _ _ _ _ Htypes Hpre Hpage).
  - intros fuel w pre post articles w1 out w' Htypes Hpre Hrun.
    exact (load_data_reaches _ _ _ _ _ _ _ _ _ _ Htypes Hpre Hrun).
Qed.

Lemma blank_entry_is_fetched_witness :
  "" ∈ post_types (limited_webinars_reader (H := three_page_site)) ∧
  req_url (page_request (limited_webinars_reader (H := three_page_site)) "" 1)
  = "https://example.com/wp-json/wp/v2/?per_page=100&page=1" ∧
  ∃ out w' before r after,
    load_data (H := three_page_site) 4
      (limited_webinars_reader (H := three_page_site)) [] = Some (out, w') ∧
    w' = before ++
         (page_request (limited_webinars_reader (H := three_page_site)) "" 1, r)
         :: after.
Proof.
  destruct (blank_entry_is_fetched (H := three_page_site)
              "https://example.com" None None false false "webinars," (Some 2))
    as (Hin & Hurl & Hrun & _).
  - discriminate.
  - unfold has_blank_entry. cbn. set_solver.
  - split; [exact Hin|]. split; [exact Hurl|].
    destruct (Hrun 2 4%nat [] eq_refl) as (out & w' & Hload & Hreq);
      [vm_compute; lia|].
    destruct Hreq as [(before & r & after & Hw)|(e & pre & post & _ & _ & ->)].
    + exists out, w', before, r, after. split; [exact Hload|exact Hw].
    + vm_compute in Hload. discriminate Hload.
Defined.

(* ------------------------------------------------------------------ *)
(* Body and title resolution                                           *)
(* ------------------------------------------------------------------ *)

(* The body of an article whose content is an object: its rendered entry
   unless that is absent or None, and then the object itself. *)
Lemma resolve_body_object d content :
  assoc "content" d = Some (PDict content) →
  resolve_body (PDict d)
  = Ok (match assoc "rendered" content with
        | Some v => if is_None v then PDict content else v
        | None => PDict content
        end).
Proof.
  intros Hc. unfold resolve_body. cbn. rewrite Hc. cbn.
  destruct (assoc "rendered" content) as [v|]; cbn; [|reflexivity].
  destruct (is_None v); reflexivity.
Qed.

(* The title of an article whose title is an object: its rendered entry
   when that is truthy, and else the object itself. *)
Lemma resolve_title_object d title :
  assoc "title" d = Some (PDict title) →
  resolve_title (PDict d)
  = Ok (match assoc "rendered" title with
        | Some v => if py_truthy v then v else PDict title
        | None => PDict title
        end).
Proof.
  intros Ht. unfold resolve_title. cbn. rewrite Ht. cbn.
  destruct (assoc "rendered" title) as [v|]; cbn; [|reflexivity].
  destruct (py_truthy v); reflexivity.
Qed.

(* A content or title that is a str, a number, a list, None or a bool
   has no get method. *)
Lemma resolve_body_scalar d v :
  assoc "content" d = Some v → (∀ c, v ≠ PDict c) →
  resolve_body (PDict d) = Raise AttributeError.
Proof.
  intros Hc Hv. unfold resolve_body. cbn. rewrite Hc. cbn.
  destruct v; try reflexivity. by destruct (Hv d0).
Qed.

Lemma resolve_title_scalar d v :
  assoc "title" d = Some v → (∀ t, v ≠ PDict t) →
  resolve_title (PDict d) = Raise AttributeError.
Proof.
  intros Ht Hv. unfold resolve_title. cbn. rewrite Ht. cbn.
  destruct v; try reflexivity. by destruct (Hv d0).
Qed.

(** C2: an article whose title is the object with rendered s gets the
    title s when s is not empty (and the object itself when it is); an
    article whose title is the str s gets no title: resolving it raises
    AttributeError, and so does normalising the article once its body has
    been extracted. *)
Theorem flat_title_raises `{Externals} (s : string) (fields : list (string * PyVal)) :
  resolve_title (PDict (("title", rendered s) :: fields))
  = Ok (if String.eqb s "" then rendered s else PStr s) ∧
  resolve_title (PDict (("title", PStr s) :: fields)) = Raise AttributeError ∧
  ∃ e, normalize (PDict (("title", PStr s) :: fields)) = Raise e.
Proof.
  split; [|split].
  - rewrite (resolve_title_object _ [("rendered", PStr s)]) by reflexivity.
    cbn. destruct s; reflexivity.
  - apply (resolve_title_scalar _ (PStr s)); [reflexivity|discriminate].
  - unfold normalize.
    destruct (resolve_body _) as [body|]; cbn [bindR]; [|eauto].
    destruct (get_text body) as [txt|]; cbn [bindR]; [|eauto].
    rewrite (resolve_title_scalar _ (PStr s)); [|reflexivity|discriminate].
    cbn. eauto.
Qed.

(** C3: an article whose content is the str s gets no body: resolving it
    raises AttributeError, and so does normalising the article. *)
Theorem flat_content_raises `{Externals} (s : string) (fields : list (string * PyVal)) :
  resolve_body (PDict (("content", PStr s) :: fields)) = Raise AttributeError ∧
  normalize (PDict (("content", PStr s) :: fields)) = Raise AttributeError.
Proof.
  assert (Hbody : resolve_body (PDict (("content", PStr s) :: fields))
                  = Raise AttributeError).
  { apply (resolve_body_scalar _ (PStr s)); [reflexivity|discriminate]. }
  split; [exact Hbody|]. unfold normalize. rewrite Hbody. reflexivity.
Qed.

(** C9: an article whose title is the object with rendered "" gets that
    object as its title, not the empty string. *)
Theorem empty_rendered_title_falls_back (fields : list (string * PyVal)) :
  resolve_title (PDict (("title", rendered "") :: fields)) = Ok (rendered "") ∧
  resolve_body (PDict (("content", rendered "") :: fields)) = Ok (PStr "").
Proof.
  split.
  - rewrite (resolve_title_object _ [("rendered", PStr "")]); reflexivity.
  - rewrite (resolve_body_object _ [("rendered", PStr "")]); reflexivity.
Qed.

(* ------------------------------------------------------------------ *)
(* Failures and the page limit                                         *)
(* ------------------------------------------------------------------ *)

(** X1: with a page limit n, get_all_posts returns (documents or an
    exception) whatever the site answers, provided it may iterate
    max n 1 times, and it has then made at most max n 1 exchanges: the
    limit bounds the loop. *)
Theorem get_all_posts_limit_terminates `{Externals} self post_type n fuel w :
  page_limit self = Some n →
  (Z.to_nat (Z.max n 1) ≤ fuel)%nat →
  ∃ out w', get_all_posts fuel self post_type w = Some (out, w') ∧
            (length w' ≤ length w + Z.to_nat (Z.max n 1))%nat.
Proof.
  intros Hlimit Hfuel.
  destruct (get_all_posts_limit_returns self post_type n fuel w Hlimit Hfuel)
    as (out & w' & Hrun & Hlen).
  exists out, w'. split; [exact Hrun|exact Hlen].
Qed.

Lemma get_all_posts_limit_terminates_witness :
  ∃ out w',
    get_all_posts (H := three_page_site) 2
      (posts_reader (H := three_page_site) (Some 2)) "posts" []
    = Some (out, w') ∧ (length w' ≤ 2)%nat.
Proof.
  destruct (get_all_posts_limit_terminates (H := three_page_site)
              (posts_reader (H := three_page_site) (Some 2)) "posts" 2 2 [])
    as (out & w' & Hrun & Hlen).
  - reflexivity.
  - vm_compute. lia.
  - exists out, w'. split; [exact Hrun|exact Hlen].
Defined.

(** X2: a response whose status is in 400..599 makes get_posts_page raise
    the HTTP error with that status, before any header or body is read. *)
Theorem get_posts_page_http_error `{Externals} self post_type p w response :
  respond w (page_request self post_type p) = Ok response →
  400 ≤ status_code response < 600 →
  get_posts_page self post_type p w
  = (Raise (HTTPError (status_code response)),
     w ++ [(page_request self post_type p, Ok response)]).
Proof.
  intros Hr Hs. unfold get_posts_page, requests_get. cbn zeta. rewrite Hr. cbn.
  unfold raise_for_status.
  destruct (Z.leb_spec 400 (status_code response)); [|lia].
  destruct (Z.ltb_spec (status_code response) 600); [|lia].
  reflexivity.
Qed.

Lemma get_posts_page_http_error_witness :
  get_posts_page (H := constant server_error)
    (posts_reader (H := constant server_error) None) "posts" 1 []
  = (Raise (HTTPError 500),
     [(page_request (posts_reader (H := constant server_error) None) "posts" 1,
       Ok server_error)]).
Proof.
  apply (get_posts_page_http_error (H := constant server_error)
           (posts_reader (H := constant server_error) None) "posts" 1 []
           server_error).
  - reflexivity.
  - cbn. lia.
Defined.

(** X3: an exception raised while the pages of one post type are fetched
    ends load_data with that exception: the types after it are not
    fetched and no article is normalised. *)
Theorem load_data_fetch_error `{Externals} fuel self w pre post_type post
    articles w1 e w2 :
  post_types self = pre ++ post_type :: post →
  fetch_articles fuel self pre [] w = Some (Ok articles, w1) →
  get_all_posts fuel self post_type w1 = Some (Raise e, w2) →
  load_data fuel self w = Some (Raise e, w2).
Proof.
  intros Htypes Hpre Hraise. unfold load_data.
  rewrite Htypes, fetch_articles_app, Hpre. cbn [fetch_articles].
  rewrite Hraise. reflexivity.
Qed.

Lemma load_data_fetch_error_witness :
  option_map fst (load_data (H := failing_site) 5
                    (posts_reader (H := failing_site) None) [])
  = Some (Raise (HTTPError 500)).
Proof.
  erewrite (load_data_fetch_error (H := failing_site) 5
              (posts_reader (H := failing_site) None) [] [] "posts" [] [] []).
  - reflexivity.
  - reflexivity.
  - reflexivity.
  - vm_compute. reflexivity.
Defined.

(* ------------------------------------------------------------------ *)
(* Runs on the samples                                                 *)
(* ------------------------------------------------------------------ *)

Example split_trailing_comma : split "," "webinars," = ["webinars"; ""].
Proof. reflexivity. Qed.

Example strip_spaces : strip "  my-custom-page " = "my-custom-page".
Proof. reflexivity. Qed.

Example int_of_str_samples :
  map int_of_str ["3"; " 12 "; "+7"; "-4"; "1_000"; "007"; ""; "abc"; "3, 3"; "1__0"; "_1"; "1_"; "- 1"; "2.0"]
  = [Some 3; Some 12; Some 7; Some (-4); Some 1000; Some 7; None; None; None; None; None; None; None; None].
Proof. reflexivity. Qed.

(* The spec's scenario: pages only, X-WP-TotalPages: 3, one item a page. *)
Example three_pages :
  match load_data (H := scenario_site) 10
          (pages_reader (H := scenario_site) None) [] with
  | Some (Ok docs, w) =>
      map text docs = ["a"; "b"; "c"] ∧
      map (λ doc, assoc "url" (extra_info doc)) docs
      = [Some (PStr "https://example.com/?p=1");
         Some (PStr "https://example.com/?p=2");
         Some (PStr "https://example.com/?p=3")] ∧
      map req_url (requests_of w)
      = ["https://example.com/wp-json/wp/v2/pages?per_page=100&page=1";
         "https://example.com/wp-json/wp/v2/pages?per_page=100&page=2";
         "https://example.com/wp-json/wp/v2/pages?per_page=100&page=3"]
  | _ => False
  end.
Proof. vm_compute. repeat split; reflexivity. Qed.

(* The same site under page_limit=2: two requests, two documents. *)
Example three_pages_limit_two :
  match load_data (H := scenario_site) 10
          (pages_reader (H := scenario_site) (Some 2)) [] with
  | Some (Ok docs, w) => map text docs = ["a"; "b"] ∧ length w = 2%nat
  | _ => False
  end.
Proof. vm_compute. split; reflexivity. Qed.

(* A 500 on the second page ends the call with the status, no document. *)
Example second_page_fails :
  option_map fst (load_data (H := failing_site) 10
                    (pages_reader (H := failing_site) None) [])
  = Some (Raise (HTTPError 500)).
Proof. vm_compute. reflexivity. Qed.

(* additional_post_types="webinars,": the reader asks for the post type
   with the empty name. *)
Example trailing_comma_run :
  match load_data (H := three_page_site) 10
          (webinars_reader (H := three_page_site)) [] with
  | Some (_, w) =>
      "https://example.com/wp-json/wp/v2/?per_page=100&page=1"
      ∈ map req_url (requests_of w)
  | None => False
  end.
Proof. vm_compute. set_solver. Qed.

(* Requests made against a three-page collection under several limits. *)
Example scenario_counts :
  map (λ limit, option_map (λ r, length (snd r))
                  (get_all_posts (H := three_page_site) 10
                     (posts_reader (H := three_page_site) limit) "posts" []))
      [None; Some 1; Some 2; Some 3; Some 4; Some 0; Some (-1)]
  = [Some 3; Some 1; Some 2; Some 3; Some 3; Some 1; Some 1]%nat.
Proof. vm_compute. reflexivity. Qed.

(* ------------------------------------------------------------------ *)
(* The constructor and the requests                                    *)
(* ------------------------------------------------------------------ *)

(* What __init__ puts among the post types. *)
Lemma post_types_elem `{Externals} url username password get_pages get_posts
    additional limit x :
  x ∈ post_types (__init__ url username password get_pages get_posts
                    additional limit) ↔
  (get_pages = true ∧ x = "pages") ∨
  (get_posts = true ∧ x = "posts") ∨
  (∃ a, additional = Some a ∧ a ≠ "" ∧ x ∈ map strip (split "," a)).
Proof.
  unfold __init__. cbn [post_types]. rewrite set_order_elem.
  assert (Htruthy : ∀ a, truthy_opt (Some a) = true ↔ a ≠ "").
  { intros a. cbn. destruct a; cbn; split; congruence. }
  assert (Hbase : ∀ (P Q : bool) (R : Prop) (S : gset string),
            (x ∈ S ↔ (P = true ∧ x = "pages") ∨ (Q = true ∧ x = "posts")) →
            (x ∈ S ∨ R ↔
             (P = true ∧ x = "pages") ∨ (Q = true ∧ x = "posts") ∨ R)) by tauto.
  assert (Hflags : x ∈ (let types : gset string := ∅ in
                        let types := if get_pages then types ∪ {["pages"]} else types in
                        if get_posts then types ∪ {["posts"]} else types) ↔
                   (get_pages = true ∧ x = "pages") ∨
                   (get_posts = true ∧ x = "posts")).
  { cbv zeta. destruct get_pages, get_posts;
      rewrite ?elem_of_union, ?elem_of_singleton, ?elem_of_empty;
      intuition congruence. }
  cbv zeta in Hflags.
  destruct additional as [a|]; cbn [truthy_opt default from_option id].
  - destruct (negb (String.eqb a "")) eqn:Ha.
    + assert (Hne : a ≠ "") by (apply Htruthy; exact Ha).
      rewrite elem_of_union, elem_of_list_to_set, (Hbase _ _ _ _ Hflags).
      split; (intros [Hx|[Hx|Hx]]; [auto|auto|]).
      * right; right. exists a. auto.
      * destruct Hx as (a' & Ha' & _ & Hx). simplify_eq. auto.
    + assert (Hemp : ¬ a ≠ "").
      { intros Hne. apply Htruthy in Hne. cbn in Hne. congruence. }
      rewrite Hflags. split; [tauto|].
      intros [Hx|[Hx|(a' & Ha' & Hne & _)]]; [auto|auto|].
      simplify_eq. contradiction.
  - rewrite Hflags. split; [tauto|].
    intros [Hx|[Hx|(a' & Ha' & _)]]; [auto|auto|discriminate].
Qed.

(** X4: the post types of a reader are "pages" when get_pages is set,
    "posts" when get_posts is set, and the stripped entries of a
    non-empty additional_post_types, and nothing else; each is listed
    once, however often the arguments name it. *)
Theorem init_post_types `{Externals} url username password get_pages get_posts
    additional limit x :
  NoDup (post_types (__init__ url username password get_pages get_posts
                       additional limit)) ∧
  (x ∈ post_types (__init__ url username password get_pages get_posts
                     additional limit) ↔
   (get_pages = true ∧ x = "pages") ∨
   (get_posts = true ∧ x = "posts") ∨
   (∃ a, additional = Some a ∧ a ≠ "" ∧ x ∈ map strip (split "," a))).
Proof.
  split.
  - unfold __init__. cbn [post_types]. apply set_order_NoDup.
  - apply post_types_elem.
Qed.

(** X5: a request carries the credentials exactly when the reader has a
    user name and a password that are both non-empty; with either one
    missing or empty the request is sent without authentication. *)
Theorem page_request_auth self post_type page u pw :
  (req_auth (page_request self post_type page) = Some (u, pw) ↔
   username self = Some u ∧ password self = Some pw ∧ u ≠ "" ∧ pw ≠ "") ∧
  (req_auth (page_request self post_type page) = None ↔
   username self = None ∨ username self = Some "" ∨
   password self = None ∨ password self = Some "").
Proof.
  unfold page_request. cbn [req_auth].
  destruct (username self) as [[|c u']|], (password self) as [[|c' pw']|];
    cbn; split; split; intros Hx;
    repeat match goal with
           | H : _ ∧ _ |- _ => destruct H
           | H : _ ∨ _ |- _ => destruct H
           end;
    simplify_eq; auto 6.
Qed.

Section Requests.
Context `{Externals}.

(* Whatever the outcome, the exchanges of a run of the loop ask for
   consecutive pages from next_page on. *)
Lemma get_all_posts_loop_requests fuel self post_type :
  ∀ posts p f w out w',
    get_all_posts_loop fuel self post_type posts p f w = Some (out, w') →
    ∃ xs, xs ≠ [] ∧ w' = w ++ xs ∧
          requests_of xs
          = map (page_request self post_type) (seqZ p (Z.of_nat (length xs))).
Proof.
  induction fuel as [|fuel IH]; intros posts p f w out w' Hrun; [discriminate|].
  cbn [get_all_posts_loop] in Hrun.
  pose proof (get_posts_page_world self post_type p w) as Hw.
  assert (Hone : ∃ xs, xs ≠ [] ∧
            w ++ [(page_request self post_type p,
                   respond w (page_request self post_type p))] = w ++ xs ∧
            requests_of xs
            = map (page_request self post_type) (seqZ p (Z.of_nat (length xs)))).
  { eexists [_]. repeat split; done. }
  destruct (get_posts_page self post_type p w) as [[[body np]|e] w1] eqn:Hpage;
    cbn in Hw; subst w1; [|simplify_eq; exact Hone].
  destruct (get_posts_page_ok _ _ _ _ _ _ Hpage)
    as (response & t & _ & _ & _ & _ & Hnext & _). cbn in Hnext.
  destruct (py_iter body) as [items|e]; [|simplify_eq; exact Hone].
  destruct np as [q|]; [|simplify_eq; exact Hone].
  assert (q = p + 1) as -> by (destruct (t >? p); congruence).
  assert (Hmore :
            get_all_posts_loop fuel self post_type (posts ++ items) (p + 1) (f + 1)
              (w ++ [(page_request self post_type p,
                      respond w (page_request self post_type p))])
            = Some (out, w') →
            ∃ xs, xs ≠ [] ∧ w' = w ++ xs ∧
              requests_of xs
              = map (page_request self post_type) (seqZ p (Z.of_nat (length xs)))).
  { intros Hrec. destruct (IH _ _ _ _ _ _ Hrec) as (xs & _ & -> & Hreq).
    eexists (_ :: xs). split; [done|]. split; [by rewrite <- app_assoc|].
    cbn [length requests_of map fst]. rewrite Nat2Z.inj_succ.
    rewrite seqZ_cons by lia. cbn [map]. f_equal.
    rewrite Z.pred_succ. unfold requests_of in Hreq. rewrite Hreq. reflexivity. }
  destruct (page_limit self) as [limit|]; [|auto].
  destruct (f + 1 >=? limit); [simplify_eq; exact Hone|auto].
Qed.

(* Whatever the outcome, the first loop of load_data asks only for pages,
   from 1 on, of the types it is given. *)
Lemma fetch_articles_requests fuel self types :
  ∀ articles w out w',
    fetch_articles fuel self types articles w = Some (out, w') →
    ∃ xs, w' = w ++ xs ∧
          Forall (λ rq, ∃ post_type page,
                    post_type ∈ types ∧ 1 ≤ page ∧
                    rq = page_request self post_type page)
                 (requests_of xs).
Proof.
  induction types as [|post_type types IH]; intros articles w out w' Hrun.
  - cbn in Hrun. simplify_eq. exists []. rewrite app_nil_r. split; constructor.
  - cbn [fetch_articles] in Hrun.
    destruct (get_all_posts fuel self post_type w) as [[r w1]|] eqn:Hposts;
      [|discriminate].
    destruct (get_all_posts_loop_requests _ _ _ _ _ _ _ _ _ Hposts)
      as (xs & _ & -> & Hreq).
    assert (Hxs : Forall (λ rq, ∃ pt page,
                            pt ∈ post_type :: types ∧ 1 ≤ page ∧
                            rq = page_request self pt page)
                         (requests_of xs)).
    { rewrite Hreq. apply Forall_fmap, Forall_seqZ. intros page Hpage. cbn.
      exists post_type, page. split; [left|]. split; [lia|reflexivity]. }
    destruct r as [posts|e].
    + destruct (IH _ _ _ _ Hrun) as (ys & -> & Hys).
      exists (xs ++ ys). split; [by rewrite app_assoc|].
      unfold requests_of. rewrite map_app. apply Forall_app. split; [exact Hxs|].
      eapply Forall_impl; [exact Hys|]. cbn.
      intros rq (pt & page & Hin & Hpage & ->).
      exists pt, page. split; [by right|]. auto.
    + simplify_eq. exists xs. auto.
Qed.

End Requests.

(** X6: whatever its outcome (documents, or an exception at any point),
    a run of load_data only adds exchanges to those made before, and
    every request it makes is the request for some page, numbered from 1,
    of one of the reader's post types: it asks for nothing else. *)
Theorem load_data_requests `{Externals} fuel self w out w' :
  load_data fuel self w = Some (out, w') →
  ∃ xs, w' = w ++ xs ∧ Forall (configured_request self) (requests_of xs).
Proof.
  unfold load_data. intros Hrun.
  destruct (fetch_articles fuel self (post_types self) [] w)
    as [[r w1]|] eqn:Hfetch; [|discriminate].
  destruct (fetch_articles_requests _ _ _ _ _ _ _ Hfetch) as (xs & -> & Hxs).
  exists xs. split; [|exact Hxs].
  destruct r; simplify_eq; reflexivity.
Qed.

Lemma load_data_requests_witness :
  ∃ xs, Forall (configured_request (posts_reader (H := failing_site) None))
               (requests_of xs) ∧ length xs = 2%nat.
Proof.
  edestruct (load_data_requests (H := failing_site) 5
               (posts_reader (H := failing_site) None) [])
    as (xs & Hw & Hxs).
  - vm_compute. reflexivity.
  - exists xs. split; [exact Hxs|]. cbn in Hw. rewrite <- Hw. reflexivity.
Defined.

(** X7: a page limit of 1, of 0 or below still lets get_all_posts fetch
    the first page, and nothing more: the limit is tested only after a
    page has been fetched. *)
Theorem get_all_posts_small_limit `{Externals} fuel self post_type n w :
  page_limit self = Some n → n ≤ 1 →
  ∃ out,
    get_all_posts (S fuel) self post_type w
    = Some (out, w ++ [(page_request self post_type 1,
                        respond w (page_request self post_type 1))]).
Proof.
  intros Hlimit Hn. unfold get_all_posts. cbn [get_all_posts_loop].
  pose proof (get_posts_page_world self post_type 1 w) as Hw.
  destruct (get_posts_page self post_type 1 w) as [[[body np]|e] w1];
    cbn in Hw; subst w1; [|eauto].
  destruct (py_iter body) as [items|e]; [|eauto].
  destruct np as [q|]; [|eauto].
  rewrite Hlimit. destruct (Z.geb_spec (0 + 1) n); [eauto|lia].
Qed.

Lemma get_all_posts_small_limit_witness :
  ∃ out,
    get_all_posts (H := three_page_site) 3
      (posts_reader (H := three_page_site) (Some 0)) "posts" []
    = Some (out,
            [(page_request (posts_reader (H := three_page_site) (Some 0)) "posts" 1,
              Ok (page_of "3" []))]).
Proof.
  apply (get_all_posts_small_limit (H := three_page_site) 2
           (posts_reader (H := three_page_site) (Some 0)) "posts" 0 []).
  - reflexivity.
  - lia.
Defined.

Section Composition.
Context `{Externals}.

Lemma types_run_requests self (pages : string → Z) types :
  ∀ w, requests_of (types_run self pages types w) = requests_for self pages types.
Proof.
  induction types as [|post_type types IH]; intros w; [reflexivity|].
  cbn [types_run requests_for flat_map]. unfold requests_of in *.
  rewrite map_app. f_equal; [|apply IH].
  etrans; [apply page_run_requests|].
  unfold seqZ. rewrite Nat2Z.id. reflexivity.
Qed.

(* The first loop of load_data against good answers to the pages it
   asks for, type after type. *)
Lemma fetch_articles_run fuel self (total : string → Z) types :
  (∀ n, page_limit self = Some n → 1 ≤ n) →
  (∀ post_type, post_type ∈ types →
     (Z.to_nat (pages_to_fetch (total post_type) (page_limit self)) ≤ fuel)%nat) →
  ∀ articles w,
    types_good self total types w →
    fetch_articles fuel self types articles w
    = Some (Ok (articles ++
                items_of
                  (types_run self
                     (λ post_type,
                        pages_to_fetch (total post_type) (page_limit self))
                     types w)),
            w ++ types_run self
                   (λ post_type,
                      pages_to_fetch (total post_type) (page_limit self))
                   types w).
Proof.
  intros Hlimit. induction types as [|post_type types IH];
    intros Hfuel articles w Hgood.
  - cbn. rewrite !app_nil_r. reflexivity.
  - cbn [types_good] in Hgood. destruct Hgood as [Hpages Hrest].
    destruct (get_all_posts_run fuel self post_type (total post_type) w
                Hlimit Hpages) as [_ Hrun]; [apply Hfuel; left|].
    cbn [fetch_articles types_run]. rewrite Hrun.
    rewrite (IH (λ pt Hin, Hfuel pt (list_elem_of_further _ _ _ Hin)) _ _ Hrest).
    unfold items_of. rewrite flat_map_app, !app_assoc. reflexivity.
Qed.

(* A Document that was built, read backwards. *)
Lemma normalize_ok article doc :
  normalize article = Ok doc →
  ∃ body title id link modified,
    resolve_body article = Ok body ∧ get_text body = Ok (text doc) ∧
    resolve_title article = Ok title ∧
    py_getitem article "id" = Ok id ∧
    py_getitem article "link" = Ok link ∧
    py_getitem article "modified" = Ok modified ∧
    extra_info doc
    = [("id", id); ("title", title); ("url", link); ("updated_at", modified)].
Proof.
  unfold normalize.
  destruct (resolve_body article) as [body|]; cbn [bindR]; [|discriminate].
  destruct (get_text body) as [txt|] eqn:Htxt; cbn [bindR]; [|discriminate].
  destruct (resolve_title article) as [title|]; cbn [bindR]; [|discriminate].
  destruct (py_getitem article "id") as [id|]; cbn [bindR]; [|discriminate].
  destruct (py_getitem article "link") as [link|]; cbn [bindR]; [|discriminate].
  destruct (py_getitem article "modified") as [modified|]; cbn [bindR];
    [|discriminate].
  intros Hdoc. simplify_eq. cbn.
  exists body, title, id, link, modified. repeat split; done.
Qed.

End Composition.

(** X8: the page limit counts per post type.  Under a limit n >= 1 or
    none, when the answers to the requests for pages 1 .. k of each post
    type of the reader in turn (each request made after the ones before
    it) are good pages reporting the total of that type, where
    k = min (max total 1) n for that type, load_data makes exactly those
    exchanges, k for each type whatever the other types took, and then
    normalises the items they brought. *)
Theorem load_data_limit_per_type `{Externals} fuel self (total : string → Z) w :
  (∀ n, page_limit self = Some n → 1 ≤ n) →
  types_good self total (post_types self) w →
  (∀ post_type, post_type ∈ post_types self →
     (Z.to_nat (pages_to_fetch (total post_type) (page_limit self)) ≤ fuel)%nat) →
  ∃ xs,
    xs = types_run self
           (λ post_type, pages_to_fetch (total post_type) (page_limit self))
           (post_types self) w ∧
    load_data fuel self w = Some (process_articles (items_of xs) [], w ++ xs) ∧
    requests_of xs
    = requests_for self
        (λ post_type, pages_to_fetch (total post_type) (page_limit self))
        (post_types self).
Proof.
  intros Hlimit Hgood Hfuel. eexists. split; [reflexivity|].
  split; [|apply types_run_requests].
  unfold load_data.
  rewrite (fetch_articles_run fuel self total (post_types self)
             Hlimit Hfuel [] w Hgood).
  reflexivity.
Qed.

Lemma load_data_limit_per_type_witness :
  ∃ xs,
    load_data (H := two_by_two_site) 5 (both_reader (H := two_by_two_site) None) []
    = Some (process_articles (H := two_by_two_site) (items_of xs) [], xs) ∧
    length (requests_of xs) = 4%nat.
Proof.
  destruct (load_data_limit_per_type (H := two_by_two_site) 5
              (both_reader (H := two_by_two_site) None) (λ _, 2) [])
    as (xs & _ & Hrun & Hreq).
  - intros n Hn. vm_compute in Hn. discriminate.
  - change (post_types (both_reader (H := two_by_two_site) None))
      with ["posts"; "pages"].
    cbn [types_good].
    change (Z.to_nat (pages_to_fetch 2
                        (page_limit (both_reader (H := two_by_two_site) None))))
      with 2%nat.
    unfold all_good. cbn [page_run].
    repeat (split; [repeat (apply Forall_cons; split; [good_page_now|]);
                    apply Forall_nil_2|]).
    exact I.
  - intros post_type _. vm_compute. lia.
  - exists xs. split; [exact Hrun|]. rewrite Hreq. vm_compute. reflexivity.
Defined.

(** X9: every Document load_data returns carries, for its item, the
    extracted text of the resolved body and the metadata id, title, url
    and updated_at, in that order, holding the item's id, its resolved
    title, its link and its modified, unchanged. *)
Theorem load_data_metadata `{Externals} fuel self w docs w' :
  load_data fuel self w = Some (Ok docs, w') →
  ∃ xs, w' = w ++ xs ∧
    Forall2 (λ article doc,
               ∃ body title id link modified,
                 resolve_body article = Ok body ∧
                 get_text body = Ok (text doc) ∧
                 resolve_title article = Ok title ∧
                 py_getitem article "id" = Ok id ∧
                 py_getitem article "link" = Ok link ∧
                 py_getitem article "modified" = Ok modified ∧
                 extra_info doc
                 = [("id", id); ("title", title); ("url", link);
                    ("updated_at", modified)])
            (items_of xs) docs.
Proof.
  unfold load_data. intros Hrun.
  destruct (fetch_articles fuel self (post_types self) [] w)
    as [[[articles|e] w1]|] eqn:Hfetch; [|discriminate..].
  destruct (fetch_articles_ok _ _ _ _ _ _ _ Hfetch) as (runs & Hw & Harts & _).
  cbn in Harts. subst articles.
  assert (Hdocs : process_articles (items_of (concat runs)) [] = Ok docs)
    by congruence.
  destruct (process_articles_ok _ _ _ Hdocs) as (new & Hnew & Hall).
  cbn in Hnew. subst new.
  exists (concat runs). split; [congruence|].
  eapply Forall2_impl; [exact Hall|]. cbn. intros article doc.
  apply normalize_ok.
Qed.

Lemma load_data_metadata_witness :
  ∃ xs, length (items_of xs) = 3%nat.
Proof.
  edestruct (load_data_metadata (H := scenario_site) 10
               (pages_reader (H := scenario_site) None) [])
    as (xs & _ & Hall).
  - vm_compute. reflexivity.
  - exists xs. exact (Forall2_length _ _ _ Hall).
Defined.

(* ------------------------------------------------------------------ *)
(* Items that are not as expected                                      *)
(* ------------------------------------------------------------------ *)

(** X10: an item without a title is not an error: it becomes a Document
    whose title is None.  And for an item without content the text
    extractor is handed None. *)
Theorem normalize_without_title `{Externals} d body txt id link modified :
  assoc "title" d = None →
  resolve_body (PDict d) = Ok body → get_text body = Ok txt →
  assoc "id" d = Some id → assoc "link" d = Some link →
  assoc "modified" d = Some modified →
  normalize (PDict d)
  = Ok {| text := txt;
          extra_info := [("id", id); ("title", PNone); ("url", link);
                         ("updated_at", modified)] |} ∧
  (assoc "content" d = None → body = PNone).
Proof.
  intros Htitle Hbody Htxt Hid Hlink Hmod. split.
  - assert (Hres : resolve_title (PDict d) = Ok PNone).
    { unfold resolve_title. cbn. rewrite Htitle. reflexivity. }
    unfold normalize. rewrite Hbody. cbn [bindR]. rewrite Htxt. cbn [bindR].
    rewrite Hres. cbn. rewrite Hid, Hlink, Hmod. reflexivity.
  - intros Hcontent. unfold resolve_body in Hbody. cbn in Hbody.
    rewrite Hcontent in Hbody. cbn in Hbody. congruence.
Qed.

Lemma normalize_without_title_witness :
  normalize (H := three_page_site) untitled_item
  = Ok {| text := "c";
          extra_info := [("id", PInt 9); ("title", PNone);
                         ("url", PStr "https://example.com/?p=9");
                         ("updated_at", PStr "2024-01-01T00:00:00")] |}.
Proof.
  apply (normalize_without_title (H := three_page_site) _ (PStr "c"));
    reflexivity.
Defined.

(** X11: load_data raises the exception of the first article, in fetch
    order, that fails to normalise; the articles after it are not looked
    at, whatever is wrong with them. *)
Theorem load_data_first_failure `{Externals} fuel self w pre article post e w' :
  fetch_articles fuel self (post_types self) [] w
  = Some (Ok (pre ++ article :: post), w') →
  Forall (λ x, ∃ doc, normalize x = Ok doc) pre →
  normalize article = Raise e →
  load_data fuel self w = Some (Raise e, w').
Proof.
  intros Hfetch Hpre Hraise. unfold load_data. rewrite Hfetch.
  rewrite (process_articles_raise _ _ _ _ [] Hpre Hraise). reflexivity.
Qed.

Lemma load_data_first_failure_witness :
  option_map fst (load_data (H := mixed_site) 5
                    (posts_reader (H := mixed_site) None) [])
  = Some (Raise AttributeError).
Proof.
  erewrite (load_data_first_failure (H := mixed_site) 5
              (posts_reader (H := mixed_site) None) []
              [item 1 (rendered "A") (rendered "a")] (PStr "oops") [no_id_item]).
  - reflexivity.
  - vm_compute. reflexivity.
  - constructor; [|constructor]. eexists. vm_compute. reflexivity.
  - reflexivity.
Defined.

(** X12: an article that is not a JSON object (a str, a number, a list,
    null, a bool) fails to normalise with AttributeError, at the first
    article.get, before the text extractor is called. *)
Theorem normalize_not_an_object `{Externals} article :
  is_dict article = false →
  resolve_body article = Raise AttributeError ∧
  normalize article = Raise AttributeError.
Proof.
  intros Hdict.
  assert (Hbody : resolve_body article = Raise AttributeError)
    by (destruct article; try reflexivity; discriminate).
  split; [exact Hbody|]. unfold normalize. rewrite Hbody. reflexivity.
Qed.

Lemma normalize_not_an_object_witness :
  resolve_body (PStr "oops") = Raise AttributeError ∧
  normalize (H := three_page_site) (PStr "oops") = Raise AttributeError.
Proof.
  apply (normalize_not_an_object (H := three_page_site) (PStr "oops")).
  reflexivity.
Defined.

(** X13: a successful response whose JSON body is not an array, an
    object or a string (null, a number, a bool) makes get_all_posts raise
    TypeError when it extends the posts, right after that one request. *)
Theorem get_all_posts_body_not_iterable `{Externals} fuel self post_type w
    response t body :
  respond w (page_request self post_type 1) = Ok response →
  raise_for_status response = Ok tt →
  num_pages response = Ok t →
  json response = Some body →
  is_iterable body = false →
  get_all_posts (S fuel) self post_type w
  = Some (Raise TypeError, w ++ [(page_request self post_type 1, Ok response)]).
Proof.
  intros Hr Hs Hn Hj Hiter. unfold get_all_posts. cbn [get_all_posts_loop].
  rewrite (get_posts_page_good _ _ _ _ _ _ _ Hr Hs Hn Hj).
  unfold is_iterable in Hiter.
  destruct body; cbn in Hiter; try discriminate; reflexivity.
Qed.

Lemma get_all_posts_body_not_iterable_witness :
  get_all_posts (H := number_site) 3 (posts_reader (H := number_site) None) "posts" []
  = Some (Raise TypeError,
          [(page_request (posts_reader (H := number_site) None) "posts" 1,
            Ok {| status_code := 200; headers := []; json := Some (PInt 7) |})]).
Proof.
  apply (get_all_posts_body_not_iterable (H := number_site) 2
           (posts_reader (H := number_site) None) "posts" []
           {| status_code := 200; headers := []; json := Some (PInt 7) |}
           1 (PInt 7)); reflexivity.
Defined.

(** X14: whatever its outcome, get_all_posts asks for pages 1, 2, ..., n
    of its post type for some n >= 1, one after the other: no page is
    skipped or asked for twice, and an exception ends the run at the
    page that raised it. *)
Theorem get_all_posts_consecutive `{Externals} fuel self post_type w out w' :
  get_all_posts fuel self post_type w = Some (out, w') →
  ∃ xs, w' = w ++ xs ∧ (1 ≤ length xs)%nat ∧
        requests_of xs
        = map (page_request self post_type) (seqZ 1 (Z.of_nat (length xs))).
Proof.
  unfold get_all_posts. intros Hrun.
  destruct (get_all_posts_loop_requests _ _ _ _ _ _ _ _ _ Hrun)
    as (xs & Hne & Hw & Hreq).
  exists xs. split; [exact Hw|]. split; [|exact Hreq].
  destruct xs; [contradiction|cbn; lia].
Qed.

Lemma get_all_posts_consecutive_witness :
  ∃ xs, (1 ≤ length xs)%nat ∧
        requests_of xs
        = map (page_request (posts_reader (H := failing_site) None) "posts")
            (seqZ 1 (Z.of_nat (length xs))).
Proof.
  edestruct (get_all_posts_consecutive (H := failing_site) 5
               (posts_reader (H := failing_site) None) "posts" [])
    as (xs & _ & Hlen & Hreq).
  - vm_compute. reflexivity.
  - exists xs. split; [exact Hlen|exact Hreq].
Defined.

(* ------------------------------------------------------------------ *)
(* The entries of additional_post_types                                *)
(* ------------------------------------------------------------------ *)

Lemma split_nonempty sep s : split sep s ≠ [].
Proof.
  destruct s as [|c s]; cbn; [discriminate|].
  destruct (Ascii.eqb c sep); [discriminate|].
  destruct (split sep s); discriminate.
Qed.

(* No entry of a split holds the separator. *)
Lemma split_no_sep sep s :
  ∀ x, x ∈ split sep s → sep ∉ list_ascii_of_string x.
Proof.
  induction s as [|c s IH]; intros x Hx; cbn in Hx.
  - apply list_elem_of_singleton in Hx as ->. cbn. apply not_elem_of_nil.
  - destruct (Ascii.eqb_spec c sep) as [->|Hc].
    + apply elem_of_cons in Hx as [->|Hx]; [cbn; apply not_elem_of_nil|auto].
    + destruct (split sep s) as [|entry entries] eqn:Hs;
        [by destruct (split_nonempty sep s)|].
      apply elem_of_cons in Hx as [->|Hx].
      * cbn. intros [Heq|Hin]%elem_of_cons; [congruence|].
        revert Hin. apply IH. left.
      * apply IH. by right.
Qed.

Lemma lstrip_chars s c :
  c ∈ list_ascii_of_string (lstrip s) → c ∈ list_ascii_of_string s.
Proof.
  induction s as [|a s IH]; cbn [lstrip]; [auto|].
  destruct (is_space a); [|auto]. intros Hc. cbn. right. auto.
Qed.

Lemma rstrip_chars s :
  ∀ c, c ∈ list_ascii_of_string (rstrip s) → c ∈ list_ascii_of_string s.
Proof.
  induction s as [|a s IH]; intros c; cbn [rstrip]; [auto|].
  destruct (rstrip s) as [|b r] eqn:Hr.
  - destruct (is_space a); cbn [list_ascii_of_string].
    + intros []%elem_of_nil.
    + intros ->%list_elem_of_singleton. left.
  - cbn [list_ascii_of_string].
    intros [->|Hc]%elem_of_cons; [left|]. right. apply IH. exact Hc.
Qed.

(* What is left of lstrip does not start with white space, and rstrip
   neither adds to the front nor leaves white space at the end. *)
Lemma lstrip_head s :
  match lstrip s with
  | EmptyString => True
  | String c _ => is_space c = false
  end.
Proof.
  induction s as [|a s IH]; cbn [lstrip]; [exact I|].
  destruct (is_space a) eqn:Ha; [exact IH|exact Ha].
Qed.

Lemma rstrip_head s :
  match rstrip s with
  | EmptyString => True
  | String c _ => ∃ s', s = String c s'
  end.
Proof.
  destruct s as [|a s]; cbn [rstrip]; [exact I|].
  destruct (rstrip s); [destruct (is_space a)|]; eauto.
Qed.

Lemma rstrip_idempotent s : rstrip (rstrip s) = rstrip s.
Proof.
  induction s as [|a s IH]; cbn [rstrip]; [reflexivity|].
  destruct (rstrip s) as [|b r] eqn:Hr.
  - destruct (is_space a) eqn:Ha; cbn [rstrip]; [reflexivity|].
    rewrite Ha. reflexivity.
  - cbn [rstrip]. cbn [rstrip] in IH.
    destruct (rstrip r) as [|b' r'] eqn:Hr'.
    + destruct (is_space b); [discriminate|]. simplify_eq. reflexivity.
    + simplify_eq. reflexivity.
Qed.

Lemma strip_idempotent s : strip (strip s) = strip s.
Proof.
  unfold strip.
  assert (Hl : lstrip (rstrip (lstrip s)) = rstrip (lstrip s)).
  { pose proof (lstrip_head s) as Hhead.
    pose proof (rstrip_head (lstrip s)) as Hr.
    destruct (rstrip (lstrip s)) as [|c r]; [done|].
    destruct Hr as [s' Hs']. rewrite Hs' in Hhead. cbn [lstrip].
    rewrite Hhead. reflexivity. }
  rewrite Hl. apply rstrip_idempotent.
Qed.

Lemma no_comma_in_defaults :
  (","%char ∉ list_ascii_of_string "pages") ∧
  (","%char ∉ list_ascii_of_string "posts").
Proof.
  split; cbn; intros Hin;
    repeat (apply elem_of_cons in Hin as [Hin|Hin]; [discriminate|]);
    by apply elem_of_nil in Hin.
Qed.

(** X15: every post type of a reader is trimmed and holds no comma:
    stripping it again changes nothing.  The entries taken from
    additional_post_types are cut at every comma and stripped of the
    white space around them (white space inside an entry stays). *)
Theorem post_types_trimmed `{Externals} url username password get_pages
    get_posts additional limit x :
  x ∈ post_types (__init__ url username password get_pages get_posts
                    additional limit) →
  strip x = x ∧ (","%char ∉ list_ascii_of_string x).
Proof.
  intros Hx. apply post_types_elem in Hx as [[_ ->]|[[_ ->]|(a & _ & _ & Hx)]].
  - split; [reflexivity|apply no_comma_in_defaults].
  - split; [reflexivity|apply no_comma_in_defaults].
  - apply list_elem_of_fmap in Hx as (entry & -> & Hentry). split.
    + apply strip_idempotent.
    + intros Hcomma. apply (split_no_sep "," a entry Hentry).
      apply lstrip_chars, rstrip_chars. exact Hcomma.
Qed.

Lemma post_types_trimmed_witness :
  strip "my-custom-page" = "my-custom-page" ∧
  (","%char ∉ list_ascii_of_string "my-custom-page").
Proof.
  apply (post_types_trimmed (H := three_page_site)
           "https://example.com" None None true true
           (Some " my-custom-page , webinars") None).
  apply set_order_elem. vm_compute. set_solver.
Defined.
